(** * JobFit AI: the API route handlers, embedded and verified

    The repository is a Next.js application whose server side is five route
    handlers:

    - [CoverLetter.POST]    app/api/cover-letter/route.ts
    - [GenerateResume.POST] app/api/resume/generate/route.ts
    - [TailorResume.POST]   app/api/tailor-resume/route.ts
    - [ResumeUpload.POST]   app/api/resume-upload/route.ts
    - [EnvCheck.GET]        the handler reporting which environment keys are set

    Every handler is a straight line of awaited calls to services that live
    outside the repository (the identity provider, the managed database, the
    completion API, the PDF and DOCX parsers), cut short by early [return]s
    and wrapped in one [try]/[catch].  The embedding keeps exactly that
    shape: a handler is a computation in a small monad with early return and
    exceptions, running against a [World] that says what each outside
    service answers, and logging every outside call in a trace.

    What is kept and what is not:
    - strings are JavaScript strings, sequences of UTF-16 code units, and
      the string functions the handlers use are defined on them;
    - a request body is taken at the TypeScript type its handler declares
      for it, or the read of the body fails;
    - the row a handler inserts is kept with its owner, job, type and
      text; the prompt sent to the completion API, the title of a
      document and its [content_json] are not (the completion API answers
      what the world says, whatever the prompt);
    - the caller's [credits_remaining] is state, read and written by the
      tailoring handler and changed by other requests in between. *)

From Stdlib Require Import List String Ascii NArith ZArith Bool Lia.
From Stdlib Require Import DecimalString.
From Equations Require Import Equations.
Import ListNotations.

(** ** JavaScript strings *)

Module JS.

(** A JavaScript string is a sequence of UTF-16 code units; [length] counts
    code units.  A code unit is kept as an [N]. *)
Definition jsstring := list N.

(** A string literal of the source (all of them are ASCII). *)
Definition lit (s : string) : jsstring :=
  List.map N_of_ascii (list_ascii_of_string s).

Definition CR : N := 13.
Definition LF : N := 10.
Definition SPACE : N := 32.
Definition TAB : N := 9.

Fixpoint eqb (a b : jsstring) : bool :=
  match a, b with
  | [], [] => true
  | x :: a', y :: b' => N.eqb x y && eqb a' b'
  | _, _ => false
  end.

(** [s.startsWith(p)] *)
Fixpoint startsWith (p s : jsstring) : bool :=
  match p, s with
  | [], _ => true
  | x :: p', y :: s' => N.eqb x y && startsWith p' s'
  | _ :: _, [] => false
  end.

(** [s.slice(n)] for a non-negative [n]. *)
Definition slice (n : nat) (s : jsstring) : jsstring := skipn n s.

(** [s.endsWith(p)] *)
Definition endsWith (p s : jsstring) : bool :=
  startsWith (rev p) (rev s).

(** [s.includes(p)] *)
Fixpoint includes (p s : jsstring) : bool :=
  startsWith p s ||
  match s with
  | [] => false
  | _ :: s' => includes p s'
  end.

(** Truthiness of a string value: the empty string is falsy. *)
Definition truthy (s : jsstring) : bool :=
  match s with [] => false | _ :: _ => true end.

(** Truthiness of a possibly [undefined]/[null] string. *)
Definition truthy_opt (o : option jsstring) : bool :=
  match o with Some s => truthy s | None => false end.

(** [a || b] where [a] may be [undefined] and [b] is a string. *)
Definition or_else (a : option jsstring) (b : jsstring) : jsstring :=
  match a with
  | Some s => if truthy s then s else b
  | None => b
  end.

(** [a || b] where both may be [undefined]. *)
Definition or_opt (a b : option jsstring) : option jsstring :=
  if truthy_opt a then a else b.

(** [a ?? b] *)
Definition nullish (a : option jsstring) (b : jsstring) : jsstring :=
  match a with Some s => s | None => b end.

(** The code units [String.prototype.trim] strips: ECMAScript's WhiteSpace
    (TAB, VT, FF, ZWNBSP and the space separators) and LineTerminator
    (LF, CR, LS, PS). *)
Definition is_whitespace (c : N) : bool :=
  (N.leb 9 c && N.leb c 13) ||
  N.eqb c 32 || N.eqb c 160 || N.eqb c 5760 ||
  (N.leb 8192 c && N.leb c 8202) ||
  N.eqb c 8232 || N.eqb c 8233 || N.eqb c 8239 || N.eqb c 8287 ||
  N.eqb c 12288 || N.eqb c 65279.

Fixpoint dropWhile (f : N -> bool) (s : jsstring) : jsstring :=
  match s with
  | [] => []
  | c :: t => if f c then dropWhile f t else s
  end.

Definition trimStart (s : jsstring) : jsstring := dropWhile is_whitespace s.
Definition trimEnd (s : jsstring) : jsstring :=
  rev (dropWhile is_whitespace (rev s)).

(** [s.trim()] *)
Definition trim (s : jsstring) : jsstring := trimEnd (trimStart s).

(** [s?.trim()] *)
Definition trim_opt (o : option jsstring) : option jsstring :=
  option_map trim o.

(** [s.replaceAll(pat, rep)] for a non-empty [pat]: scan from the left;
    where [pat] starts, emit [rep] and resume after the occurrence
    ([skip] counts the code units of an occurrence still to be passed). *)
Fixpoint replaceAll_from (pat rep : jsstring) (skip : nat) (s : jsstring)
  : jsstring :=
  match s with
  | [] => []
  | c :: t =>
      match skip with
      | S k => replaceAll_from pat rep k t
      | O =>
          if startsWith pat s
          then rep ++ replaceAll_from pat rep (Nat.pred (List.length pat)) t
          else c :: replaceAll_from pat rep O t
      end
  end.

Definition replaceAll (pat rep : jsstring) (s : jsstring) : jsstring :=
  replaceAll_from pat rep O s.

(** Decimal rendering of a number inside a template string. *)
Definition of_N (n : N) : jsstring :=
  lit (NilZero.string_of_uint (N.to_uint n)).

End JS.

Import JS.

(** ** Global regular-expression replacement

    [s.replace(/re/g, rep)] walks the string from the left: at each position
    it tries the expression; on a match the replacement is emitted and the
    walk resumes after the match, otherwise the code unit is copied and the
    walk moves one position on.  Each expression is given by what it does
    at the head of a string: it fails, or it answers the rest of the string
    after its match. *)

Module Regex.

Definition is_blank (c : N) : bool := N.eqb c SPACE || N.eqb c TAB.
Definition is_LF (c : N) : bool := N.eqb c LF.

(** The expression [[ \t]+\n] at the head of [s]: a non-empty run of
    spaces and tabs (as long as possible; a run never contains the newline
    that has to follow it) and then a newline. *)
Definition match_blanks_nl (s : jsstring) : option jsstring :=
  match s with
  | c :: t =>
      if is_blank c then
        match dropWhile is_blank t with
        | d :: rest => if is_LF d then Some rest else None
        | [] => None
        end
      else None
  | [] => None
  end.

(** The expression [\n{3,}] at the head of [s]: three newlines and then as
    many more as there are (the quantifier is greedy). *)
Definition match_3nl (s : jsstring) : option jsstring :=
  match s with
  | a :: b :: c :: t =>
      if is_LF a && is_LF b && is_LF c then Some (dropWhile is_LF t) else None
  | _ => None
  end.

Definition inspect {A} (a : A) : {b : A | a = b} := exist _ a eq_refl.

(** [s.replace(/[ \t]+\n/g, "\n")] *)
Equations? replace_blanks_nl (s : jsstring) : jsstring
  by wf (List.length s) lt :=
  replace_blanks_nl [] := [];
  replace_blanks_nl (c :: t) with inspect (match_blanks_nl (c :: t)) := {
    | exist _ (Some rest) _ => LF :: replace_blanks_nl rest;
    | exist _ None _ => c :: replace_blanks_nl t }.
Proof.
  - clear replace_blanks_nl. simpl in e.
    destruct (is_blank c); [|discriminate].
    assert (Hl : (List.length (dropWhile is_blank t) <= List.length t)%nat).
    { clear e. induction t as [|x t IH]; simpl; [lia|].
      destruct (is_blank x); simpl; lia. }
    destruct (dropWhile is_blank t) as [|d r]; [discriminate|].
    destruct (is_LF d); [|discriminate].
    injection e as <-. simpl in Hl. lia.
Defined.

(** [s.replace(/\n{3,}/g, "\n\n")] *)
Equations? replace_3nl (s : jsstring) : jsstring
  by wf (List.length s) lt :=
  replace_3nl [] := [];
  replace_3nl (c :: t) with inspect (match_3nl (c :: t)) := {
    | exist _ (Some rest) _ => LF :: LF :: replace_3nl rest;
    | exist _ None _ => c :: replace_3nl t }.
Proof.
  - clear replace_3nl. simpl in e.
    destruct t as [|b [|d t]]; try discriminate.
    destruct (is_LF c && is_LF b && is_LF d); [|discriminate].
    injection e as <-.
    assert (Hl : (List.length (dropWhile is_LF t) <= List.length t)%nat).
    { induction t as [|x t IH]; simpl; [lia|].
      destruct (is_LF x); simpl; lia. }
    simpl. lia.
Defined.

End Regex.

Import Regex.

(** ** Responses, rows and the outside world *)

Module Http.

(** A row of [documents] as the database hands it back after an insert. *)
Record Doc := {
  doc_id : jsstring;
  doc_title : jsstring;
  doc_content_text : jsstring;
  doc_created_at : jsstring }.

Inductive JVal :=
| JStr (s : jsstring)
| JNum (z : Z)
| JBool (b : bool)
| JNull
| JRow (d : Doc).

(** A JSON object: its keys in the order the source writes them. *)
Definition Json := list (string * JVal).

Record Response := { status : N; body : Json }.

(** [NextResponse.json(obj, { status })] *)
Definition json (obj : Json) (st : N) : Response :=
  {| status := st; body := obj |}.

(** [NextResponse.json(obj)] and [Response.json(obj)]: status 200. *)
Definition json_ok (obj : Json) : Response := json obj 200.

(** [{ error: msg }] *)
Definition error_body (msg : jsstring) : Json := [("error"%string, JStr msg)].

Definition keys (o : Json) : list string := List.map fst o.

Definition has_key (k : string) (o : Json) : bool :=
  existsb (String.eqb k) (keys o).

Definition of_num (o : option Z) : JVal :=
  match o with Some z => JNum z | None => JNull end.

Definition of_row (o : option Doc) : JVal :=
  match o with Some d => JRow d | None => JNull end.

End Http.

Import Http.

Module Backend.

Inductive DocType := resume | tailored_resume | cover_letter.

(** The object given to [from("documents").insert(...)]; [title] and
    [content_json] are presentation data and left out. *)
Record Row := {
  user_id : jsstring;
  job_id : option jsstring;
  type : DocType;
  content_text : jsstring }.

Record User := {
  id : jsstring;
  email : option jsstring;
  full_name : option jsstring }.

(** A row of [jobs], with the columns that reach a response or a row. *)
Record Job := {
  job_row_id : jsstring;
  company : option jsstring;
  role : option jsstring;
  job_description : option jsstring }.

(** [{ data, error }] of [supabase.auth.getUser]. *)
Record AuthResult := { userErr : option jsstring; user : option User }.

(** [{ data, error }] of the [jobs] select. *)
Record JobResult := { jobErr : option jsstring; job : option Job }.

(** [{ data, error }] of [rpc("consume_credits", ...)]; the error is given
    by its [message]. *)
Record RpcResult := { creditErr : option jsstring; newBalance : option Z }.

(** [{ data, error }] of the [documents] insert. *)
Record InsertResult := { docErr : option jsstring; doc : option Doc }.

(** [{ data, error }] of the [profiles] select; [credits_remaining] of the
    row read. *)
Record ProfileResult := { profErr : option jsstring; profile : option Z }.

(** The HTTP exchange with the completion API done by [callOpenAI]. *)
Inductive FetchResult :=
| FetchRejects (message : option jsstring)
| FetchNotOk (http_status : N) (text : jsstring)
| FetchOk (content : option jsstring).

(** A call of the completion SDK or of a parsing library: it throws or it
    answers a text that may be missing. *)
Inductive CallResult :=
| Rejects (message : option jsstring)
| Resolves (text : option jsstring).

(** Outcome of loading [pdf-parse] with [require]. *)
Inductive PdfModule :=
| RequireThrows (message : option jsstring)
| NotAFunction
| Loaded.

Record File := {
  name : jsstring;
  mime_type : jsstring;
  bytes : list Byte.byte }.

(** What [form.get("file")] can be. *)
Inductive FormEntry :=
| NoEntry
| TextEntry (value : jsstring)
| FileEntry (file : File).

End Backend.

Import Backend.

(** ** The handler monad *)

Module Run.

(** The awaited calls of a handler, to the services outside the repository
    and to the uploaded file, with what came back where a later decision
    depends on it.  An event is one call the handler makes: [Completion]
    is one call of the completion client ([fetch] in [callOpenAI],
    [openai.chat.completions.create] in the tailoring route); the HTTP
    requests the SDK may repeat inside that one call are its own and are
    not events. *)
Inductive Event :=
| GetUser
| SelectJob (jobId : jsstring)
| ConsumeCredits (reason : jsstring) (result : RpcResult)
| Completion
| InsertDocument (row : Row)
| SelectProfile (result : ProfileResult)
| UpdateCredits (credits_remaining : Z)
| InsertCreditTransaction
| ArrayBuffer (buf : list Byte.byte)
| PdfParse
| MammothExtract.

(** What the services outside the repository answer during one request. *)
Record World := {
  (** [process.env] *)
  env : string -> option jsstring;
  (** [new Date().toLocaleDateString(...)] *)
  today : jsstring;
  auth_getUser : AuthResult;
  jobs_select : JobResult;
  consume_credits : RpcResult;
  openai_fetch : FetchResult;
  openai_sdk : CallResult;
  documents_insert : InsertResult;
  (** error of the [profiles] select, if any *)
  profiles_select_error : option jsstring;
  (** error of the [profiles] update, if any *)
  profiles_update_error : option jsstring;
  (** what other requests do to the caller's balance while this one waits
      for the completion API *)
  other_requests : Z -> Z;
  (** [makeSupabase()] of the upload route throws *)
  cookies_client_throws : option (option jsstring);
  (** [createClient(...)], and [makeSupabaseAuthed(token)] of the upload
      route, throw (the library refuses the URL or the key) *)
  createClient_throws : option (option jsstring);
  pdf_module : PdfModule;
  pdfParse : CallResult;
  mammoth_extractRawText : CallResult;
  (** [buf.toString("utf8")] *)
  utf8_decode : list Byte.byte -> jsstring;
  (** [String.prototype.toLowerCase] *)
  toLowerCase : jsstring -> jsstring }.

(** The trace of outside calls so far and [credits_remaining] of the
    caller's row of [profiles] (or no row), as the select and the update of
    the tailoring route read and write it.  What the [consume_credits]
    procedure does to that counter happens inside the procedure, outside
    the repository, and is not followed here: of a call of the procedure
    the handlers see the answer only, which the world gives. *)
Record State := {
  trace : list Event;
  credits : option Z }.

(** How a piece of a handler ends: it goes on with a value, it returns
    the response, or it throws (an exception is kept by its [message],
    which may be missing). *)
Inductive Outcome (A : Type) :=
| Val (a : A)
| Return (r : Response)
| Throw (message : option jsstring).

Arguments Val {A} a.
Arguments Return {A} r.
Arguments Throw {A} message.

Definition Handler (A : Type) := State -> Outcome A * State.

Definition ret {A} (a : A) : Handler A := fun s => (Val a, s).

Definition bind {A B} (m : Handler A) (k : A -> Handler B) : Handler B :=
  fun s =>
    match m s with
    | (Val a, s') => k a s'
    | (Return r, s') => (Return r, s')
    | (Throw e, s') => (Throw e, s')
    end.

(** [return r;] *)
Definition reply {A} (r : Response) : Handler A := fun s => (Return r, s).

(** [throw new Error(msg)] *)
Definition throw {A} (msg : option jsstring) : Handler A :=
  fun s => (Throw msg, s).

(** [if (c) return r;] *)
Definition return_if (c : bool) (r : Response) : Handler unit :=
  if c then reply r else ret tt.

Definition log (e : Event) : Handler unit :=
  fun s => (Val tt, {| trace := trace s ++ [e]; credits := credits s |}).

Definition get_credits : Handler (option Z) :=
  fun s => (Val (credits s), s).

(** A write to [credits_remaining] of the caller's row, by this request or
    by another one; there is nothing to write where there is no row. *)
Definition modify_credits (f : Z -> Z) : Handler unit :=
  fun s => (Val tt, {| trace := trace s; credits := option_map f (credits s) |}).

(** [try { h } catch (e) { return handler(e) }] *)
Definition try_catch (h : Handler Response)
    (handler : option jsstring -> Response) (s : State) : Response * State :=
  match h s with
  | (Val r, s') => (r, s')
  | (Return r, s') => (r, s')
  | (Throw e, s') => (handler e, s')
  end.

Definition start (c : option Z) : State := {| trace := []; credits := c |}.

(** What reading the body of a request gives: the parsed value, or the
    read rejects ([req.json()] on malformed JSON, for one). *)
Inductive Payload (B : Type) :=
| Parsed (b : B)
| Unreadable (message : option jsstring).

Arguments Parsed {B} b.
Arguments Unreadable {B} message.

(** A request: its [authorization] header, if any, and its body. *)
Record Request (B : Type) := {
  authorization : option jsstring;
  payload : Payload B }.

Arguments authorization {B} r.
Arguments payload {B} r.

(** [await req.json()], [await req.formData()] *)
Definition read_body {B} (req : Request B) : Handler B :=
  match payload req with
  | Parsed b => ret b
  | Unreadable e => throw e
  end.

(** [requireEnv(name)] *)
Definition requireEnv (W : World) (name : string) : Handler jsstring :=
  match env W name with
  | Some v =>
      if truthy v then ret v
      else throw (Some (lit "Missing env: " ++ lit name))
  | None => throw (Some (lit "Missing env: " ++ lit name))
  end.

(** [createClient(url, key, options)] *)
Definition createClient (W : World) : Handler unit :=
  match createClient_throws W with
  | Some e => throw e
  | None => ret tt
  end.

End Run.

Import Run.

Declare Scope handler_scope.
Delimit Scope handler_scope with handler.
Notation "x <- m ;; k" := (bind m (fun x => k))
  (at level 61, m at next level, right associativity) : handler_scope.
Notation "m ;; k" := (bind m (fun _ => k))
  (at level 61, right associativity) : handler_scope.
Open Scope handler_scope.

(** ** app/api/cover-letter/route.ts *)

Module CoverLetter.

(** [tone] only feeds the prompt and [content_json]. *)
Record Body := {
  jobId : option jsstring;
  userFullName : option jsstring;
  userAddressLine1 : option jsstring;
  userCityStateZip : option jsstring;
  userPhone : option jsstring;
  userEmail : option jsstring;
  companyName : option jsstring;
  hiringManagerName : option jsstring;
  dateText : option jsstring }.

Definition formatDate (W : World) (dateText : option jsstring) : jsstring :=
  match dateText with
  | Some d => if truthy d && truthy (trim d) then trim d else today W
  | None => today W
  end.

Definition callOpenAI (W : World) : Handler jsstring :=
  _ <- requireEnv W "OPENAI_API_KEY" ;;
  log Completion ;;
  match openai_fetch W with
  | FetchRejects e => throw e
  | FetchNotOk st text =>
      throw (Some (lit "OpenAI error: " ++ of_N st ++ lit " " ++ text))
  | FetchOk content =>
      let content := trim_opt content in
      match content with
      | Some c =>
          if truthy c then ret c
          else throw (Some (lit "OpenAI returned empty content"))
      | None => throw (Some (lit "OpenAI returned empty content"))
      end
  end.

Definition NL : jsstring := [LF].

Definition handle (W : World) (req : Request Body) : Handler Response :=
  _ <- requireEnv W "NEXT_PUBLIC_SUPABASE_URL" ;;
  _ <- requireEnv W "NEXT_PUBLIC_SUPABASE_ANON_KEY" ;;
  let authHeader := or_else (authorization req) [] in
  let token :=
    if startsWith (lit "Bearer ") authHeader
    then Some (slice 7 authHeader) else None in
  return_if (negb (truthy_opt token))
    (json (error_body (lit "Missing Authorization Bearer token")) 401) ;;
  createClient W ;;
  body <- read_body req ;;
  return_if (negb (truthy_opt (jobId body)))
    (json (error_body (lit "jobId is required")) 400) ;;
  log GetUser ;;
  match userErr (auth_getUser W), user (auth_getUser W) with
  | None, Some user =>
      log (SelectJob (nullish (jobId body) [])) ;;
      match jobErr (jobs_select W), job (jobs_select W) with
      | None, Some job =>
          log (ConsumeCredits (lit "cover_letter_generation")
                 (consume_credits W)) ;;
          match creditErr (consume_credits W) with
          | Some message =>
              let msg := or_else (Some message) [] in
              if includes (lit "INSUFFICIENT_CREDITS") msg
              then reply (json (error_body (lit "Insufficient credits")) 402)
              else reply (json (error_body (lit "Credit error: " ++ msg)) 500)
          | None =>
              let newBalance := newBalance (consume_credits W) in
              let headerName :=
                or_else (or_opt (trim_opt (userFullName body)) (full_name user))
                  (lit "John Doe") in
              let headerEmail :=
                or_else (or_opt (trim_opt (userEmail body)) (email user))
                  (lit "john.doe@email.com") in
              let address1 :=
                or_else (trim_opt (userAddressLine1 body)) (lit "123 Main St") in
              let cityStateZip :=
                or_else (trim_opt (userCityStateZip body))
                  (lit "City, ST 00000") in
              let phone :=
                or_else (trim_opt (userPhone body)) (lit "555 555-5555") in
              let companyName :=
                or_else (or_opt (trim_opt (companyName body)) (company job))
                  (lit "Company Name") in
              let hiringManager :=
                or_else (trim_opt (hiringManagerName body))
                  (lit "Hiring Manager") in
              let dateText := formatDate W (dateText body) in
              letterBody <- callOpenAI W ;;
              let fullText :=
                headerName ++ NL ++ address1 ++ NL ++ cityStateZip ++ NL ++
                phone ++ NL ++ headerEmail ++ NL ++ NL ++
                dateText ++ NL ++ companyName ++ NL ++ NL ++
                lit "Dear " ++ hiringManager ++ lit "," ++ NL ++ NL ++
                letterBody ++ NL ++ NL ++
                lit "Sincerely," ++ NL ++ headerName ++ NL in
              log (InsertDocument
                     {| user_id := id user;
                        job_id := Some (job_row_id job);
                        type := cover_letter;
                        content_text := fullText |}) ;;
              match docErr (documents_insert W), doc (documents_insert W) with
              | None, Some doc =>
                  ret (json_ok [("document"%string, JRow doc);
                                ("creditsRemaining"%string, of_num newBalance)])
              | _, _ =>
                  reply (json (error_body (lit "Failed to save document")) 500)
              end
          end
      | _, _ => reply (json (error_body (lit "Job not found")) 404)
      end
  | _, _ => reply (json (error_body (lit "Invalid session")) 401)
  end.

(** [export async function POST(req)]: the body above inside its
    [try]/[catch]. *)
Definition POST (W : World) (req : Request Body) (s : State)
  : Response * State :=
  try_catch (handle W req)
    (fun e => json (error_body (nullish e (lit "Unknown error"))) 500) s.

End CoverLetter.

(** ** app/api/resume/generate/route.ts *)

Module GenerateResume.

(** The fields of the request body the handler branches on; the others
    ([fullName], [targetRole], ...) only feed the prompt and the title. *)
Record Body := {
  education : option jsstring;
  experience : option jsstring;
  projects : option jsstring;
  skills : option jsstring }.

Definition callOpenAI (W : World) : Handler jsstring :=
  _ <- requireEnv W "OPENAI_API_KEY" ;;
  log Completion ;;
  match openai_fetch W with
  | FetchRejects e => throw e
  | FetchNotOk st text =>
      throw (Some (lit "OpenAI error: " ++ of_N st ++ lit " " ++ text))
  | FetchOk content =>
      let content := trim_opt content in
      match content with
      | Some c =>
          if truthy c then ret c
          else throw (Some (lit "OpenAI returned empty content"))
      | None => throw (Some (lit "OpenAI returned empty content"))
      end
  end.

Definition handle (W : World) (req : Request Body) : Handler Response :=
  _ <- requireEnv W "NEXT_PUBLIC_SUPABASE_URL" ;;
  _ <- requireEnv W "NEXT_PUBLIC_SUPABASE_ANON_KEY" ;;
  let authHeader := or_else (authorization req) [] in
  let token :=
    if startsWith (lit "Bearer ") authHeader
    then Some (slice 7 authHeader) else None in
  return_if (negb (truthy_opt token))
    (json (error_body (lit "Missing Authorization Bearer token")) 401) ;;
  createClient W ;;
  body <- read_body req ;;
  log GetUser ;;
  match userErr (auth_getUser W), user (auth_getUser W) with
  | None, Some user =>
      let hasContent :=
        nullish
          (or_opt (trim_opt (education body))
             (or_opt (trim_opt (experience body))
                (or_opt (trim_opt (projects body))
                   (trim_opt (skills body))))) [] in
      return_if (negb (truthy hasContent))
        (json (error_body (lit
           "Please provide at least one of: education, experience, projects, or skills."))
           400) ;;
      log (ConsumeCredits (lit "resume_generation") (consume_credits W)) ;;
      match creditErr (consume_credits W) with
      | Some message =>
          let msg := or_else (Some message) [] in
          if includes (lit "INSUFFICIENT_CREDITS") msg
          then reply (json (error_body (lit "Insufficient credits")) 402)
          else reply (json (error_body (lit "Credit error: " ++ msg)) 500)
      | None =>
          let newBalance := newBalance (consume_credits W) in
          resumeText <- callOpenAI W ;;
          log (InsertDocument
                 {| user_id := id user;
                    job_id := None;
                    type := resume;
                    content_text := resumeText |}) ;;
          match docErr (documents_insert W), doc (documents_insert W) with
          | None, Some doc =>
              ret (json_ok [("document"%string, JRow doc);
                            ("creditsRemaining"%string, of_num newBalance)])
          | _, _ =>
              reply (json (error_body (lit "Failed to save document")) 500)
          end
      end
  | _, _ => reply (json (error_body (lit "Invalid session")) 401)
  end.

Definition POST (W : World) (req : Request Body) (s : State)
  : Response * State :=
  try_catch (handle W req)
    (fun e => json (error_body (nullish e (lit "Unknown error"))) 500) s.

End GenerateResume.

(** ** app/api/tailor-resume/route.ts *)

Module TailorResume.

(** [const openai = new OpenAI({ apiKey: process.env.OPENAI_API_KEY })]
    at the head of the module: the client of the completion SDK is built
    when the module is loaded, ahead of any request and outside the
    [try]/[catch] of [POST], and the constructor throws when it is given no
    key.  With the key in the environment the client is built and the
    module loads; without it no request reaches [POST]. *)
Definition client_built (W : World) : bool :=
  truthy_opt (env W "OPENAI_API_KEY").

(** [POST] below is the handler of a module that has loaded.  [style]
    only feeds the prompt. *)
Record Body := {
  jobId : option jsstring;
  resumeText : option jsstring }.

(** [resumeText.trim().length < 200] *)
Definition too_short (resumeText : jsstring) : bool :=
  Nat.ltb (List.length (trim resumeText)) 200.

Definition handle (W : World) (req : Request Body) : Handler Response :=
  let authHeader := or_else (authorization req) [] in
  let token :=
    if startsWith (lit "Bearer ") authHeader
    then Some (slice (List.length (lit "Bearer ")) authHeader) else None in
  return_if (negb (truthy_opt token))
    (json (error_body (lit "Missing auth token")) 401) ;;
  body <- read_body req ;;
  return_if (negb (truthy_opt (jobId body)))
    (json (error_body (lit "jobId is required")) 400) ;;
  return_if (negb (truthy_opt (resumeText body))
             || too_short (nullish (resumeText body) []))
    (json (error_body (lit "resumeText is required (min ~200 chars)")) 400) ;;
  createClient W ;;
  log GetUser ;;
  match userErr (auth_getUser W), user (auth_getUser W) with
  | None, Some user =>
      let userId := id user in
      stored <- get_credits ;;
      let result :=
        match profiles_select_error W with
        | Some e => {| profErr := Some e; profile := None |}
        | None => {| profErr := None; profile := stored |}
        end in
      log (SelectProfile result) ;;
      match profErr result with
      | Some message => reply (json (error_body message) 400)
      | None =>
          match profile result with
          | None => reply (json (error_body (lit "No credits remaining")) 402)
          | Some credits_remaining =>
              return_if (Z.leb credits_remaining 0)
                (json (error_body (lit "No credits remaining")) 402) ;;
              log (SelectJob (nullish (jobId body) [])) ;;
              match jobErr (jobs_select W), job (jobs_select W) with
              | None, Some job =>
                  log Completion ;;
                  modify_credits (other_requests W) ;;
                  match openai_sdk W with
                  | Rejects e => throw e
                  | Resolves content =>
                      let tailored := or_else (trim_opt content) [] in
                      return_if (negb (truthy tailored))
                        (json (error_body (lit "Empty AI response")) 500) ;;
                      log (InsertDocument
                             {| user_id := userId;
                                job_id := jobId body;
                                type := tailored_resume;
                                content_text := tailored |}) ;;
                      match docErr (documents_insert W) with
                      | Some message => reply (json (error_body message) 400)
                      | None =>
                          log (UpdateCredits (credits_remaining - 1)) ;;
                          match profiles_update_error W with
                          | None =>
                              modify_credits (fun _ => credits_remaining - 1)%Z ;;
                              log InsertCreditTransaction
                          | Some _ => ret tt
                          end ;;
                          ret (json [("document"%string,
                                      of_row (doc (documents_insert W)))] 200)
                      end
                  end
              | jobErr, _ =>
                  reply (json (error_body
                                 (nullish jobErr (lit "Job not found"))) 404)
              end
          end
      end
  | userErr, _ =>
      reply (json (error_body (nullish userErr (lit "Unauthorized"))) 401)
  end.

Definition POST (W : World) (req : Request Body) (s : State)
  : Response * State :=
  try_catch (handle W req)
    (fun e => json (error_body (nullish e (lit "Server error"))) 500) s.

End TailorResume.

(** ** app/api/resume-upload/route.ts *)

Module ResumeUpload.

(** [makeSupabase()] *)
Definition makeSupabase (W : World) : Handler unit :=
  match cookies_client_throws W with
  | Some e => throw e
  | None => ret tt
  end.

(** [makeSupabaseAuthed(token)] *)
Definition makeSupabaseAuthed (W : World) : Handler unit :=
  createClient W.

Definition normalizeText (raw : jsstring) : jsstring :=
  trim
    (replace_3nl
       (replace_blanks_nl
          (replaceAll [CR] [LF]
             (replaceAll [CR; LF] [LF] raw)))).

Definition handle (W : World) (req : Request FormEntry) : Handler Response :=
  makeSupabase W ;;
  let authHeader := authorization req in
  let token :=
    match authHeader with
    | Some h => if startsWith (lit "Bearer ") h then Some (slice 7 h) else None
    | None => None
    end in
  return_if (negb (truthy_opt token))
    (json (error_body (lit "Missing auth token")) 401) ;;
  log GetUser ;;
  match userErr (auth_getUser W), user (auth_getUser W) with
  | None, Some user =>
      file <- read_body req ;;
      match file with
      | FileEntry file =>
          let filename := or_else (Some (name file)) (lit "resume") in
          let mime := or_else (Some (mime_type file)) [] in
          let buf := bytes file in
          log (ArrayBuffer buf) ;;
          return_if (Nat.eqb (List.length buf) 0)
            (json (error_body (lit
               "Uploaded file was empty after reading. Try re-uploading, or export the PDF again (DOCX works best)."))
               400) ;;
          extracted <-
            (if JS.eqb mime (lit "application/pdf")
                || endsWith (lit ".pdf") (toLowerCase W filename)
             then
               match pdf_module W with
               | RequireThrows e => throw e
               | NotAFunction =>
                   throw (Some (lit "pdf-parse did not resolve to a function."))
               | Loaded =>
                   log PdfParse ;;
                   match pdfParse W with
                   | Rejects e => throw e
                   | Resolves text => ret (or_else text [])
                   end
               end
             else if JS.eqb mime (lit
                       "application/vnd.openxmlformats-officedocument.wordprocessingml.document")
                     || endsWith (lit ".docx") (toLowerCase W filename)
             then
               log MammothExtract ;;
               match mammoth_extractRawText W with
               | Rejects e => throw e
               | Resolves value => ret (or_else value [])
               end
             else if startsWith (lit "text/") mime
                     || endsWith (lit ".txt") (toLowerCase W filename)
             then ret (utf8_decode W buf)
             else
               reply (json (error_body (lit
                  "Unsupported file type. Use PDF, DOCX, or TXT.")) 400)) ;;
          let content_text := normalizeText extracted in
          return_if (Nat.ltb (List.length content_text) 200)
            (json (error_body (lit
               "Could not extract enough text from the file. Try a different format (DOCX often works best), or upload a TXT export."))
               400) ;;
          makeSupabaseAuthed W ;;
          log (InsertDocument
                 {| user_id := id user;
                    job_id := None;
                    type := resume;
                    content_text := content_text |}) ;;
          match docErr (documents_insert W) with
          | Some message => reply (json (error_body message) 500)
          | None =>
              ret (json [("document"%string,
                          of_row (doc (documents_insert W)))] 200)
          end
      | _ => reply (json (error_body (lit "No file uploaded")) 400)
      end
  | _, _ => reply (json (error_body (lit "Not authenticated")) 401)
  end.

Definition POST (W : World) (req : Request FormEntry) (s : State)
  : Response * State :=
  try_catch (handle W req)
    (fun e => json (error_body (or_else e (lit "Upload failed"))) 500) s.

End ResumeUpload.

(** ** The handler that reports which environment keys are set *)

Module EnvCheck.

Definition GET (W : World) (s : State) : Response * State :=
  (json_ok [("hasOpenAIKey"%string,
             JBool (truthy_opt (env W "OPENAI_API_KEY")));
            ("hasSupabaseUrl"%string,
             JBool (truthy_opt (env W "NEXT_PUBLIC_SUPABASE_URL")))],
   s).

End EnvCheck.

(** ** The application: its routes *)

Module App.

Inductive Route :=
| cover_letter_route
| resume_generate_route
| tailor_resume_route
| resume_upload_route
| env_check_route.

(** The body a route reads. *)
Definition body_of (r : Route) : Type :=
  match r with
  | cover_letter_route => CoverLetter.Body
  | resume_generate_route => GenerateResume.Body
  | tailor_resume_route => TailorResume.Body
  | resume_upload_route => FormEntry
  | env_check_route => unit
  end.

Definition serve (W : World) (r : Route)
  : Request (body_of r) -> State -> Response * State :=
  match r with
  | cover_letter_route => CoverLetter.POST W
  | resume_generate_route => GenerateResume.POST W
  | tailor_resume_route => TailorResume.POST W
  | resume_upload_route => ResumeUpload.POST W
  | env_check_route => fun _ => EnvCheck.GET W
  end.

(** The routes whose handler calls the completion API. *)
Definition generation_route (r : Route) : bool :=
  match r with
  | cover_letter_route | resume_generate_route | tailor_resume_route => true
  | _ => false
  end.

End App.

(** ** What the claims speak about *)

Module Props.

(** A space or a tab immediately before a newline. *)
Fixpoint has_blank_before_nl (s : jsstring) : bool :=
  match s with
  | c :: t =>
      match t with
      | d :: _ => (is_blank c && is_LF d) || has_blank_before_nl t
      | [] => false
      end
  | [] => false
  end.

(** Three newlines in a row. *)
Fixpoint has_3nl (s : jsstring) : bool :=
  match s with
  | a :: t =>
      match t with
      | b :: c :: _ => (is_LF a && is_LF b && is_LF c) || has_3nl t
      | _ => false
      end
  | [] => false
  end.

Definition has_CR (s : jsstring) : bool := existsb (N.eqb CR) s.

(** The first code unit is there and satisfies [f]. *)
Definition head_is (f : N -> bool) (s : jsstring) : bool :=
  match s with c :: _ => f c | [] => false end.

Definition starts_with_whitespace (s : jsstring) : bool :=
  head_is is_whitespace s.

Definition ends_with_whitespace (s : jsstring) : bool :=
  starts_with_whitespace (rev s).

(** Fully newline-normalized text. *)
Definition normalized (s : jsstring) : bool :=
  negb (has_CR s) && negb (has_blank_before_nl s) && negb (has_3nl s)
  && negb (starts_with_whitespace s) && negb (ends_with_whitespace s).

(** *** Requests and responses *)

(** The token a handler takes from the [authorization] header:
    [authHeader.startsWith("Bearer ") ? authHeader.slice(7) : null]. *)
Definition bearer_token {B} (req : Request B) : option jsstring :=
  match authorization req with
  | Some h => if startsWith (lit "Bearer ") h then Some (slice 7 h) else None
  | None => None
  end.

(** The request carries no [Authorization: Bearer <token>] header. *)
Definition no_bearer {B} (req : Request B) : bool :=
  negb (truthy_opt (bearer_token req)).

(** The response is an error response: its body has an [error] field. *)
Definition is_error (r : Response) : bool := has_key "error" (body r).

(** What comes before a handler looks at the [authorization] header
    goes through: the environment has the database URL and key the
    cover-letter and resume-generation handlers ask [requireEnv] for; the
    module of the tailoring route has built its SDK client and loaded;
    [makeSupabase()] of the upload handler does not throw. *)
Definition setup_ok (W : World) (r : App.Route) : bool :=
  match r with
  | App.cover_letter_route | App.resume_generate_route =>
      truthy_opt (env W "NEXT_PUBLIC_SUPABASE_URL")
      && truthy_opt (env W "NEXT_PUBLIC_SUPABASE_ANON_KEY")
  | App.tailor_resume_route => TailorResume.client_built W
  | App.resume_upload_route =>
      match cookies_client_throws W with None => true | Some _ => false end
  | App.env_check_route => true
  end.



(** *** Traces *)

(** The steps of the control flow the specification names. *)
Inductive Step :=
| token_validation
| credit_decrement
| completion_call
| row_insert.

Definition step_of (e : Event) : option Step :=
  match e with
  | GetUser => Some token_validation
  | ConsumeCredits _ _ => Some credit_decrement
  | UpdateCredits _ => Some credit_decrement
  | Completion => Some completion_call
  | InsertDocument _ => Some row_insert
  | _ => None
  end.

Fixpoint steps (t : list Event) : list Step :=
  match t with
  | [] => []
  | e :: t' =>
      match step_of e with
      | Some s => s :: steps t'
      | None => steps t'
      end
  end.

Definition step_eqb (a b : Step) : bool :=
  match a, b with
  | token_validation, token_validation
  | credit_decrement, credit_decrement
  | completion_call, completion_call
  | row_insert, row_insert => true
  | _, _ => false
  end.

(** [a] is an initial segment of [b]. *)
Fixpoint is_prefix (a b : list Step) : bool :=
  match a, b with
  | [], _ => true
  | x :: a', y :: b' => step_eqb x y && is_prefix a' b'
  | _ :: _, [] => false
  end.

(** The order of the specification's control flow. *)
Definition spec_order : list Step :=
  [token_validation; credit_decrement; completion_call; row_insert].

(** The order of the tailoring route: the decrement comes last. *)
Definition tailor_order : list Step :=
  [token_validation; completion_call; row_insert; credit_decrement].

Definition is_credit_decrement (e : Event) : bool :=
  match e with
  | ConsumeCredits _ _ | UpdateCredits _ => true
  | _ => false
  end.

Definition is_completion (e : Event) : bool :=
  match e with Completion => true | _ => false end.

Definition is_parser_call (e : Event) : bool :=
  match e with PdfParse | MammothExtract => true | _ => false end.

Definition is_consume_credits (e : Event) : bool :=
  match e with ConsumeCredits _ _ => true | _ => false end.

(** The insufficient-credits condition, as an event tells it: the
    [consume_credits] procedure answered an error whose message contains
    [INSUFFICIENT_CREDITS], or the balance read from [profiles] is not
    positive. *)
Definition signals_insufficient (e : Event) : bool :=
  match e with
  | ConsumeCredits _ result =>
      match creditErr result with
      | Some msg => includes (lit "INSUFFICIENT_CREDITS") msg
      | None => false
      end
  | SelectProfile result =>
      match profErr result, profile result with
      | None, Some balance => Z.leb balance 0
      | _, _ => false
      end
  | _ => false
  end.

End Props.

Import Props.

(** ** Concrete worlds and requests *)

Module Examples.

Definition ascii_lower (s : jsstring) : jsstring :=
  List.map (fun c => if N.leb 65 c && N.leb c 90 then (c + 32)%N else c) s.

Definition alice : User :=
  {| id := lit "user-1";
     email := Some (lit "alice@example.com");
     full_name := Some (lit "Alice Doe") |}.

Definition posting : Job :=
  {| job_row_id := lit "job-1";
     company := Some (lit "Acme");
     role := Some (lit "Engineer");
     job_description := Some (lit "Build things.") |}.

Definition saved : Doc :=
  {| doc_id := lit "doc-1";
     doc_title := lit "Document";
     doc_content_text := lit "Text";
     doc_created_at := lit "2026-01-01T00:00:00Z" |}.

(** A resume text with carriage returns, blanks before newlines and a gap
    of four newlines. *)
Definition long_text : string :=
  let cr := String (ascii_of_nat 13) EmptyString in
  let nl := String (ascii_of_nat 10) EmptyString in
  let tab := String (ascii_of_nat 9) EmptyString in
  ("  Alice Doe  " ++ cr ++ nl ++
   "Software engineer with ten years of experience in distributed systems.  "
   ++ nl ++ nl ++ nl ++ nl ++
   "EXPERIENCE" ++ tab ++ nl ++
   "Acme Corp, Senior Engineer: designed and operated a storage service used by forty teams; cut the cost of a request by half."
   ++ cr ++
   "EDUCATION" ++ nl ++
   "BS in Computer Science, State University." ++ nl ++ nl)%string.

(** A world in which every service answers, given what the [jobs] select,
    the [consume_credits] procedure and the environment answer. *)
Definition world_with (vars : string -> option jsstring) (jobs : JobResult)
    (rpc : RpcResult) : World :=
  {| env := vars;
     today := lit "November 3, 2026";
     auth_getUser := {| userErr := None; user := Some alice |};
     jobs_select := jobs;
     consume_credits := rpc;
     openai_fetch := FetchOk (Some (lit "I am glad to apply."));
     openai_sdk := Resolves (Some (lit "SUMMARY: engineer."));
     documents_insert := {| docErr := None; doc := Some saved |};
     profiles_select_error := None;
     profiles_update_error := None;
     other_requests := fun balance => (balance - 2)%Z;
     cookies_client_throws := None;
     createClient_throws := None;
     pdf_module := Loaded;
     pdfParse := Resolves (Some (lit long_text));
     mammoth_extractRawText := Resolves (Some (lit long_text));
     utf8_decode := List.map Byte.to_N;
     toLowerCase := ascii_lower |}.

Definition all_set : string -> option jsstring := fun _ => Some (lit "value").
Definition none_set : string -> option jsstring := fun _ => None.

Definition world : World :=
  world_with all_set {| jobErr := None; job := Some posting |}
    {| creditErr := None; newBalance := Some 4%Z |}.

(** The database has no such job. *)
Definition world_without_job : World :=
  world_with all_set {| jobErr := Some (lit "no rows"); job := None |}
    {| creditErr := None; newBalance := Some 4%Z |}.

(** The caller has no credit left. *)
Definition world_out_of_credits : World :=
  world_with all_set {| jobErr := None; job := Some posting |}
    {| creditErr := Some (lit "P0001: INSUFFICIENT_CREDITS");
       newBalance := None |}.

(** No environment variable is set. *)
Definition world_without_env : World :=
  world_with none_set {| jobErr := None; job := Some posting |}
    {| creditErr := None; newBalance := Some 4%Z |}.

Definition authorized {B} (b : B) : Request B :=
  {| authorization := Some (lit "Bearer eyJhbGciOi");
     payload := Parsed b |}.

Definition anonymous {B} (b : B) : Request B :=
  {| authorization := None; payload := Parsed b |}.

Definition cover_letter_body : CoverLetter.Body :=
  {| CoverLetter.jobId := Some (lit "job-1");
     CoverLetter.userFullName := None;
     CoverLetter.userAddressLine1 := None;
     CoverLetter.userCityStateZip := None;
     CoverLetter.userPhone := None;
     CoverLetter.userEmail := None;
     CoverLetter.companyName := None;
     CoverLetter.hiringManagerName := None;
     CoverLetter.dateText := None |}.

Definition generate_body : GenerateResume.Body :=
  {| GenerateResume.education := Some (lit "BS in Computer Science");
     GenerateResume.experience := None;
     GenerateResume.projects := None;
     GenerateResume.skills := None |}.

Definition tailor_body : TailorResume.Body :=
  {| TailorResume.jobId := Some (lit "job-1");
     TailorResume.resumeText := Some (lit long_text) |}.


Definition text_file : FormEntry :=
  FileEntry {| name := lit "Resume.TXT";
               mime_type := lit "text/plain";
               bytes := list_byte_of_string long_text |}.

(** The row the upload of [text_file] by [alice] inserts. *)
Definition text_row : Row :=
  {| user_id := lit "user-1";
     job_id := None;
     type := resume;
     content_text :=
       ResumeUpload.normalizeText
         (List.map Byte.to_N (list_byte_of_string long_text)) |}.

Definition empty_file : FormEntry :=
  FileEntry {| name := lit "resume.pdf";
               mime_type := lit "application/pdf";
               bytes := [] |}.

End Examples.

From Stdlib Require Import Sorted.

(** ** Further properties: what they speak about *)

Module Audit.

Definition is_insert (e : Event) : bool :=
  match e with InsertDocument _ => true | _ => false end.

Definition is_get_user (e : Event) : bool :=
  match e with GetUser => true | _ => false end.

(** The handler writes [credits_remaining] itself. *)
Definition is_balance_write (e : Event) : bool :=
  match e with UpdateCredits _ => true | _ => false end.

(** How many events of a trace satisfy [p]. *)
Definition count (p : Event -> bool) (t : list Event) : nat :=
  List.length (filter p t).

(** The [type] a route gives the rows it inserts. *)
Definition route_doc_type (r : App.Route) : option DocType :=
  match r with
  | App.cover_letter_route => Some cover_letter
  | App.resume_generate_route => Some resume
  | App.tailor_resume_route => Some tailored_resume
  | App.resume_upload_route => Some resume
  | App.env_check_route => None
  end.

(** The identity provider does not vouch for the caller:
    [userErr || !user]. *)
Definition auth_fails (W : World) : bool :=
  match userErr (auth_getUser W), user (auth_getUser W) with
  | None, Some _ => false
  | _, _ => true
  end.

(** [callOpenAI] is bound to throw: the key is not in the environment, or
    the exchange with the completion API fails or brings no text. *)
Definition completion_fails (W : World) : bool :=
  negb (truthy_opt (env W "OPENAI_API_KEY"))
  || match openai_fetch W with
     | FetchOk (Some text) => negb (truthy (trim text))
     | _ => true
     end.

(** The statuses a route can answer. *)
Definition statuses (r : App.Route) : list N :=
  match r with
  | App.cover_letter_route => [200; 400; 401; 402; 404; 500]%N
  | App.resume_generate_route => [200; 400; 401; 402; 500]%N
  | App.tailor_resume_route => [200; 400; 401; 402; 404; 500]%N
  | App.resume_upload_route => [200; 400; 401; 500]%N
  | App.env_check_route => [200]%N
  end.

(** The event is a credit check the caller has passed: the
    [consume_credits] procedure answered without error, or the balance
    read from [profiles] is positive. *)
Definition passes_credit_check (e : Event) : bool :=
  match e with
  | ConsumeCredits _ result =>
      match creditErr result with None => true | Some _ => false end
  | SelectProfile result =>
      match profErr result, profile result with
      | None, Some balance => Z.ltb 0 balance
      | _, _ => false
      end
  | _ => false
  end.

(** The text the completion API answers, if it answers one: through
    [fetch] in the cover-letter and resume-generation routes, through the
    SDK in the tailoring route. *)
Definition completion_text (W : World) (r : App.Route) : option jsstring :=
  match r with
  | App.cover_letter_route | App.resume_generate_route =>
      match openai_fetch W with
      | FetchOk content => content
      | _ => None
      end
  | App.tailor_resume_route =>
      match openai_sdk W with
      | Resolves content => content
      | Rejects _ => None
      end
  | _ => None
  end.

(** Every insert of the trace comes after a passed credit check
    ([paid]: one has been seen already). *)
Fixpoint inserts_paid (paid : bool) (t : list Event) : bool :=
  match t with
  | [] => true
  | e :: t' =>
      if is_insert e then paid && inserts_paid paid t'
      else inserts_paid (paid || passes_credit_check e) t'
  end.

End Audit.

Import Audit.

(** ** More of the route files *)

Module ResumePrompt.

(** [clamp(str, max)] of the resume-generation route; the handler calls
    it with the default [max = 16000] on each free-text field of the
    prompt. *)
Definition clamp (str : option jsstring) (max : nat) : jsstring :=
  let s := trim (nullish str []) in
  if Nat.ltb max (List.length s) then firstn max s else s.

End ResumePrompt.

Module UploadTitle.

Definition DOT : N := 46.
Definition SLASH : N := 47.

(** The class [[^/.]] *)
Definition is_extension_unit (c : N) : bool :=
  negb (N.eqb c SLASH || N.eqb c DOT).

(** The expression [\.[^/.]+$] at the head of [s]: a dot, then one or
    more code units that are neither a slash nor a dot, up to the end of
    the string. *)
Definition match_extension (s : jsstring) : bool :=
  match s with
  | c :: t => N.eqb c DOT && truthy t && forallb is_extension_unit t
  | [] => false
  end.

(** [filename.replace(/\.[^/.]+$/, "")], the title the upload route gives
    a document: the expression is tried from the left and its first match,
    which runs to the end of the string, is dropped. *)
Fixpoint remove_extension (filename : jsstring) : jsstring :=
  match filename with
  | [] => []
  | c :: t =>
      if match_extension filename then [] else c :: remove_extension t
  end.

End UploadTitle.

(** ** The forms of the dashboard that call the routes *)

Module Forms.

(** What submitting a form does: it sends a request, or it shows an error
    and sends nothing. *)
Inductive Submission (B : Type) :=
| Sent (req : Request B)
| Blocked (error : jsstring).

Arguments Sent {B} req.
Arguments Blocked {B} error.

(** [data.session?.access_token] and [if (!token) throw ...] *)
Definition with_token {B} (token : option jsstring)
    (send : jsstring -> Submission B) : Submission B :=
  match token with
  | Some t => if truthy t then send t else Blocked (lit "Not authenticated")
  | None => Blocked (lit "Not authenticated")
  end.

(** [x || undefined] *)
Definition or_undefined (x : jsstring) : option jsstring :=
  if truthy x then Some x else None.

(** [tailor()] of app/dashboard/ResumeTailor.tsx, up to its [fetch]. *)
Definition tailor (jobId resumeText : jsstring) (token : option jsstring)
  : Submission TailorResume.Body :=
  if negb (truthy jobId) then Blocked (lit "Please select a job.")
  else if Nat.ltb (List.length (trim resumeText)) 200
  then Blocked (lit "Please paste your resume text (min ~200 characters).")
  else
    with_token token (fun t =>
      Sent {| authorization := Some (lit "Bearer " ++ t);
              payload :=
                Parsed {| TailorResume.jobId := Some jobId;
                          TailorResume.resumeText := Some resumeText |} |}).

(** [generate()] of app/dashboard/CoverLetterGenerator.tsx, up to its
    [fetch]. *)
Definition generate (jobId fullName address1 cityStateZip phone email
                     : jsstring) (token : option jsstring)
  : Submission CoverLetter.Body :=
  if negb (truthy jobId) then Blocked (lit "Please select a job first")
  else
    with_token token (fun t =>
      Sent {| authorization := Some (lit "Bearer " ++ t);
              payload :=
                Parsed {| CoverLetter.jobId := Some jobId;
                          CoverLetter.userFullName := or_undefined fullName;
                          CoverLetter.userAddressLine1 :=
                            or_undefined address1;
                          CoverLetter.userCityStateZip :=
                            or_undefined cityStateZip;
                          CoverLetter.userPhone := or_undefined phone;
                          CoverLetter.userEmail := or_undefined email;
                          CoverLetter.companyName := None;
                          CoverLetter.hiringManagerName := None;
                          CoverLetter.dateText := None |} |}).

(** The token goes into the header as it is: it is made of visible ASCII
    characters (as a JWT is), which the [fetch] of the browser neither
    strips nor refuses. *)
Definition header_safe (token : jsstring) : bool :=
  forallb (fun c => N.leb 33 c && N.leb c 126) token.

End Forms.

(** ** app/dashboard/JobCreator.tsx *)

Module JobCreator.

(** The fields of the form. *)
Record Form := {
  company : jsstring;
  role : jsstring;
  jobDescription : jsstring;
  location : jsstring;
  jobUrl : jsstring;
  notes : jsstring }.

Definition cleared : Form :=
  {| company := []; role := []; jobDescription := [];
     location := []; jobUrl := []; notes := [] |}.

(** [insertPayload], the object given to [from("jobs").insert(...)]; an
    optional key is there or not. *)
Module Insert.
Record Payload := {
  user_id : jsstring;
  company : jsstring;
  role : jsstring;
  job_description : jsstring;
  location : option jsstring;
  job_url : option jsstring;
  notes : option jsstring }.
End Insert.

(** The state of the component. *)
Record View := {
  form : Form;
  loading : bool;
  error : option jsstring;
  successMsg : option jsstring }.

(** What the identity provider and the [jobs] insert answer. *)
Record Backend := {
  getUser : AuthResult;
  insertErr : option jsstring }.

(** [if (x.trim()) insertPayload.key = x.trim()] *)
Definition optional (x : jsstring) : option jsstring :=
  if truthy (trim x) then Some (trim x) else None.

(** [createJob()]: the state it leaves and the payloads it has given to
    the insert. *)
Definition createJob (B : Backend) (v : View)
  : View * list Insert.Payload :=
  let f := form v in
  let invalid msg :=
    ({| form := f; loading := loading v;
        error := Some msg; successMsg := None |}, []) in
  let failed msg sent :=
    ({| form := f; loading := false;
        error := Some msg; successMsg := None |}, sent) in
  if negb (truthy (trim (company f)))
  then invalid (lit "Company is required")
  else if negb (truthy (trim (role f)))
  then invalid (lit "Role is required")
  else if negb (truthy (trim (jobDescription f)))
  then invalid (lit "Job description is required")
  else
    match userErr (getUser B) with
    | Some message => failed message []
    | None =>
        match user (getUser B) with
        | None => failed (lit "Not logged in") []
        | Some user =>
            let insertPayload :=
              {| Insert.user_id := id user;
                 Insert.company := trim (company f);
                 Insert.role := trim (role f);
                 Insert.job_description := trim (jobDescription f);
                 Insert.location := optional (location f);
                 Insert.job_url := optional (jobUrl f);
                 Insert.notes := optional (notes f) |} in
            match insertErr B with
            | Some message => failed message [insertPayload]
            | None =>
                ({| form := cleared; loading := false;
                    error := None;
                    successMsg := Some (lit "Job saved!") |},
                 [insertPayload])
            end
        end
    end.

(** A text field of a payload is clean: not empty, no whitespace at
    either end. *)
Definition clean (x : jsstring) : bool :=
  truthy x && negb (starts_with_whitespace x)
  && negb (ends_with_whitespace x).

Definition clean_opt (o : option jsstring) : bool :=
  match o with Some x => clean x | None => true end.

End JobCreator.

(** ** app/dashboard/DocumentsList.tsx *)

Module DocumentsList.

Record DocumentRow := {
  id : jsstring;
  title : option jsstring;
  type : option jsstring;
  created_at : jsstring;
  content_text : option jsstring;
  job_id : option jsstring }.

(** The state of the component the functions below read and write. *)
Record View := {
  docs : list DocumentRow;
  filterType : jsstring;
  selectedId : option jsstring }.

(** [docs.find((d) => d.id === selectedId) ?? null] *)
Definition selectedDoc (v : View) : option DocumentRow :=
  match selectedId v with
  | Some sid => find (fun d => JS.eqb (id d) sid) (docs v)
  | None => None
  end.

Definition BACKSLASH : N := 92.

(** [displayText] *)
Definition displayText (v : View) : jsstring :=
  let raw :=
    match selectedDoc v with
    | Some d => nullish (content_text d) (lit "(No content)")
    | None => lit "(No content)"
    end in
  replaceAll [BACKSLASH; 114%N] [LF]
    (replaceAll [BACKSLASH; 110%N] [LF]
       (replaceAll [BACKSLASH; 114%N; BACKSLASH; 110%N] [LF] raw)).

(** [d.type ?? "other"] *)
Definition type_or_other (d : DocumentRow) : jsstring :=
  nullish (type d) (lit "other").

(** [filtered] *)
Definition filtered (v : View) : list DocumentRow :=
  if JS.eqb (filterType v) (lit "all") then docs v
  else filter (fun d => JS.eqb (type_or_other d) (filterType v)) (docs v).

(** [s.add(x)] on a [Set] kept in insertion order. *)
Definition set_add (s : list jsstring) (x : jsstring) : list jsstring :=
  if existsb (JS.eqb x) s then s else s ++ [x].

(** The order of [Array.prototype.sort] without a comparator on strings:
    code unit by code unit, a proper prefix first. *)
Fixpoint ltb (a b : jsstring) : bool :=
  match a, b with
  | _, [] => false
  | [], _ :: _ => true
  | x :: a', y :: b' => N.ltb x y || (N.eqb x y && ltb a' b')
  end.

Fixpoint insert (x : jsstring) (l : list jsstring) : list jsstring :=
  match l with
  | [] => [x]
  | y :: l' => if ltb y x then y :: insert x l' else x :: y :: l'
  end.

(** [Array.from(s).sort()] *)
Definition sort (l : list jsstring) : list jsstring :=
  fold_right insert [] l.

(** [a] comes strictly before [b] in that order. *)
Definition ascending (a b : jsstring) : Prop := ltb a b = true.

(** [availableTypes] *)
Definition availableTypes (v : View) : list jsstring :=
  lit "all" :: sort (fold_left set_add (List.map type_or_other (docs v)) []).

(** [deleteDoc(id)], given what [confirm] and the delete answer. *)
Definition deleteDoc (confirmed : bool) (deleteErr : option jsstring)
    (doc_id : jsstring) (v : View) : View :=
  if negb confirmed then v
  else
    match deleteErr with
    | Some _ => v
    | None =>
        {| docs := filter (fun d => negb (JS.eqb (id d) doc_id)) (docs v);
           filterType := filterType v;
           selectedId :=
             match selectedId v with
             | Some sid => if JS.eqb sid doc_id then None else Some sid
             | None => None
             end |}
    end.

End DocumentsList.

Module MoreExamples.

(** The environment has every variable but the key of the completion
    API. *)
Definition without_openai_key (name : string) : option jsstring :=
  if String.eqb name "OPENAI_API_KEY" then None else Some (lit "value").

Definition world_without_openai_key : World :=
  Examples.world_with without_openai_key
    {| jobErr := None; job := Some Examples.posting |}
    {| creditErr := None; newBalance := Some 4%Z |}.

(** The identity provider rejects the token. *)
Definition world_with_stale_token : World :=
  {| env := env Examples.world;
     today := today Examples.world;
     auth_getUser := {| userErr := Some (lit "JWT expired"); user := None |};
     jobs_select := jobs_select Examples.world;
     consume_credits := consume_credits Examples.world;
     openai_fetch := openai_fetch Examples.world;
     openai_sdk := openai_sdk Examples.world;
     documents_insert := documents_insert Examples.world;
     profiles_select_error := None;
     profiles_update_error := None;
     other_requests := fun balance => balance;
     cookies_client_throws := None;
     createClient_throws := None;
     pdf_module := Loaded;
     pdfParse := pdfParse Examples.world;
     mammoth_extractRawText := mammoth_extractRawText Examples.world;
     utf8_decode := utf8_decode Examples.world;
     toLowerCase := toLowerCase Examples.world |}.

(** The update of [profiles] fails, or not; no other request is around. *)
Definition world_alone (update_error : option jsstring) : World :=
  {| env := env Examples.world;
     today := today Examples.world;
     auth_getUser := auth_getUser Examples.world;
     jobs_select := jobs_select Examples.world;
     consume_credits := consume_credits Examples.world;
     openai_fetch := openai_fetch Examples.world;
     openai_sdk := openai_sdk Examples.world;
     documents_insert := documents_insert Examples.world;
     profiles_select_error := None;
     profiles_update_error := update_error;
     other_requests := fun balance => balance;
     cookies_client_throws := None;
     createClient_throws := None;
     pdf_module := Loaded;
     pdfParse := pdfParse Examples.world;
     mammoth_extractRawText := mammoth_extractRawText Examples.world;
     utf8_decode := utf8_decode Examples.world;
     toLowerCase := toLowerCase Examples.world |}.

(** The row a tailoring in [Examples.world] inserts. *)
Definition tailored_row : Row :=
  {| user_id := lit "user-1";
     job_id := Some (lit "job-1");
     type := tailored_resume;
     content_text := lit "SUMMARY: engineer." |}.

Definition token : jsstring := lit "eyJhbGciOi.eyJzdWIi.c2lnbg".

Definition job_form : JobCreator.View :=
  {| JobCreator.form :=
       {| JobCreator.company := lit "  Acme ";
          JobCreator.role := lit "Engineer";
          JobCreator.jobDescription := lit "Build things. ";
          JobCreator.location := lit "   ";
          JobCreator.jobUrl := lit " https://acme.example/jobs/1";
          JobCreator.notes := [] |};
     JobCreator.loading := false;
     JobCreator.error := None;
     JobCreator.successMsg := None |}.

Definition job_backend : JobCreator.Backend :=
  {| JobCreator.getUser :=
       {| userErr := None; user := Some Examples.alice |};
     JobCreator.insertErr := None |}.

Definition job_payload : JobCreator.Insert.Payload :=
  {| JobCreator.Insert.user_id := lit "user-1";
     JobCreator.Insert.company := lit "Acme";
     JobCreator.Insert.role := lit "Engineer";
     JobCreator.Insert.job_description := lit "Build things.";
     JobCreator.Insert.location := None;
     JobCreator.Insert.job_url := Some (lit "https://acme.example/jobs/1");
     JobCreator.Insert.notes := None |}.

End MoreExamples.

Lemma replace_blanks_nl_cons c t :
  replace_blanks_nl (c :: t) =
  match match_blanks_nl (c :: t) with
  | Some rest => LF :: replace_blanks_nl rest
  | None => c :: replace_blanks_nl t
  end.
Proof.
  simp replace_blanks_nl.
  destruct (inspect (match_blanks_nl (c :: t))) as [[rest|] e];
    cbn [replace_blanks_nl_unfold_clause_2]; rewrite e; reflexivity.
Qed.

Lemma replace_3nl_cons c t :
  replace_3nl (c :: t) =
  match match_3nl (c :: t) with
  | Some rest => LF :: LF :: replace_3nl rest
  | None => c :: replace_3nl t
  end.
Proof.
  simp replace_3nl.
  destruct (inspect (match_3nl (c :: t))) as [[rest|] e];
    cbn [replace_3nl_unfold_clause_2]; rewrite e; reflexivity.
Qed.

(** *** Facts on the string functions *)

Section DropWhile.

Variable f : N -> bool.

Lemma dropWhile_suffix s : exists pre, s = pre ++ dropWhile f s.
Proof.
  induction s as [|c t [pre IH]]; simpl.
  - exists []. reflexivity.
  - destruct (f c).
    + exists (c :: pre). simpl. congruence.
    + exists []. reflexivity.
Qed.

Lemma dropWhile_first s c r : dropWhile f s = c :: r -> f c = false.
Proof.
  induction s as [|d t IH]; simpl; [discriminate|].
  destruct (f d) eqn:E; [exact IH|].
  intros [= -> ->]. exact E.
Qed.

End DropWhile.

Lemma match_blanks_nl_suffix s rest :
  match_blanks_nl s = Some rest -> exists pre, s = pre ++ LF :: rest.
Proof.
  destruct s as [|c t]; simpl; [discriminate|].
  destruct (is_blank c); [|discriminate].
  destruct (dropWhile_suffix is_blank t) as [pre Hp].
  destruct (dropWhile is_blank t) as [|d r]; [discriminate|].
  destruct (is_LF d) eqn:E; [|discriminate].
  intros [= <-]. apply N.eqb_eq in E. subst d.
  exists (c :: pre). simpl. congruence.
Qed.

Lemma match_3nl_suffix s rest :
  match_3nl s = Some rest -> exists pre, s = pre ++ rest.
Proof.
  destruct s as [|a [|b [|c t]]]; simpl; try discriminate.
  destruct (is_LF a && is_LF b && is_LF c); [|discriminate].
  intros [= <-]. destruct (dropWhile_suffix is_LF t) as [pre Hp].
  exists (a :: b :: c :: pre). simpl. congruence.
Qed.

Lemma has_blank_before_nl_cons c t :
  has_blank_before_nl (c :: t) =
  (is_blank c && head_is is_LF t) || has_blank_before_nl t.
Proof.
  destruct t as [|d t]; simpl; [|reflexivity].
  rewrite andb_false_r. reflexivity.
Qed.

Lemma has_3nl_cons a t :
  has_3nl (a :: t) =
  (is_LF a && head_is is_LF t && head_is is_LF (tl t)) || has_3nl t.
Proof.
  destruct t as [|b [|c t]]; simpl; try reflexivity.
  - rewrite andb_false_r. reflexivity.
  - rewrite andb_false_r. reflexivity.
Qed.

Lemma head_is_app f s post :
  head_is f s = true -> head_is f (s ++ post) = true.
Proof. destruct s; simpl; [discriminate|auto]. Qed.

Lemma head_is_tl_app f s post :
  head_is f (tl s) = true -> head_is f (tl (s ++ post)) = true.
Proof. destruct s as [|c s]; simpl; [discriminate|apply head_is_app]. Qed.

Lemma has_blank_before_nl_suffix pre s :
  has_blank_before_nl (pre ++ s) = false -> has_blank_before_nl s = false.
Proof.
  induction pre as [|c pre IH]; simpl app; [auto|].
  rewrite has_blank_before_nl_cons. intros H.
  apply orb_false_iff in H. tauto.
Qed.

Lemma has_blank_before_nl_prefix s post :
  has_blank_before_nl (s ++ post) = false -> has_blank_before_nl s = false.
Proof.
  induction s as [|c s IH]; [reflexivity|].
  simpl app. rewrite !has_blank_before_nl_cons. intros H.
  apply orb_false_iff in H. destruct H as [H1 H2].
  rewrite (IH H2), orb_false_r.
  destruct (is_blank c); [|reflexivity]. simpl in *.
  destruct (head_is is_LF s) eqn:E; [|reflexivity].
  rewrite (head_is_app _ _ _ E) in H1. discriminate.
Qed.

Lemma has_3nl_suffix pre s : has_3nl (pre ++ s) = false -> has_3nl s = false.
Proof.
  induction pre as [|c pre IH]; simpl app; [auto|].
  rewrite has_3nl_cons. intros H. apply orb_false_iff in H. tauto.
Qed.

Lemma has_3nl_prefix s post : has_3nl (s ++ post) = false -> has_3nl s = false.
Proof.
  induction s as [|c s IH]; [reflexivity|].
  simpl app. rewrite !has_3nl_cons. intros H.
  apply orb_false_iff in H. destruct H as [H1 H2].
  rewrite (IH H2), orb_false_r.
  destruct (is_LF c); [|reflexivity]. simpl in *.
  destruct (head_is is_LF s) eqn:E1; [|reflexivity].
  destruct (head_is is_LF (tl s)) eqn:E2; [|reflexivity].
  rewrite (head_is_app _ _ _ E1), (head_is_tl_app _ _ _ E2) in H1. discriminate.
Qed.

(** The blank-run expression matches where a blank is followed by a
    string at whose head a newline, or the expression itself, is found. *)
Lemma match_blanks_nl_extend c t :
  is_blank c = true ->
  head_is is_LF t = true \/ match_blanks_nl t <> None ->
  match_blanks_nl (c :: t) <> None.
Proof.
  intros Hc H. cbn [match_blanks_nl]. rewrite Hc.
  destruct t as [|d t']; [destruct H as [H|H]; [discriminate|now elim H]|].
  destruct H as [H|H].
  - simpl in H. cbn [dropWhile].
    assert (Hd : is_blank d = false).
    { apply N.eqb_eq in H. subst d. reflexivity. }
    rewrite Hd, H. discriminate.
  - cbn [match_blanks_nl] in H. cbn [dropWhile].
    destruct (is_blank d); [exact H|now elim H].
Qed.

Lemma replace_blanks_nl_head s :
  head_is is_LF (replace_blanks_nl s) = true ->
  head_is is_LF s = true \/ match_blanks_nl s <> None.
Proof.
  destruct s as [|c t]; [simp replace_blanks_nl; discriminate|].
  rewrite replace_blanks_nl_cons.
  destruct (match_blanks_nl (c :: t)) eqn:E.
  - right. discriminate.
  - left. exact H.
Qed.

Lemma replace_blanks_nl_clean s :
  has_blank_before_nl (replace_blanks_nl s) = false.
Proof.
  funelim (replace_blanks_nl s).
  - reflexivity.
  - rewrite has_blank_before_nl_cons. rewrite H. reflexivity.
  - rewrite has_blank_before_nl_cons, H, orb_false_r.
    destruct (is_blank c) eqn:Hc; [|reflexivity].
    destruct (head_is is_LF (replace_blanks_nl t)) eqn:Hh; [|reflexivity].
    apply replace_blanks_nl_head in Hh.
    elim (match_blanks_nl_extend c t Hc Hh). assumption.
Qed.

Lemma replace_3nl_head s :
  head_is is_LF (replace_3nl s) = head_is is_LF s.
Proof.
  destruct s as [|c t]; [reflexivity|].
  rewrite replace_3nl_cons.
  destruct (match_3nl (c :: t)) eqn:E; [|reflexivity].
  destruct t as [|b [|d t]]; simpl in E; try discriminate.
  cbn [head_is]. destruct (is_LF c); [reflexivity|discriminate].
Qed.

Lemma replace_3nl_second s :
  head_is is_LF (tl (replace_3nl s)) = true -> head_is is_LF (tl s) = true.
Proof.
  destruct s as [|c t]; [simp replace_3nl; discriminate|].
  rewrite replace_3nl_cons.
  destruct (match_3nl (c :: t)) eqn:E.
  - intros _. destruct t as [|b [|d t]]; simpl in E; try discriminate.
    destruct (is_LF c), (is_LF b) eqn:Hb; try discriminate. exact Hb.
  - simpl. rewrite replace_3nl_head. auto.
Qed.

Lemma match_3nl_rest s rest :
  match_3nl s = Some rest -> head_is is_LF rest = false.
Proof.
  destruct s as [|a [|b [|c t]]]; simpl; try discriminate.
  destruct (is_LF a && is_LF b && is_LF c); [|discriminate].
  intros [= <-].
  destruct (dropWhile is_LF t) as [|x r] eqn:Ed; [reflexivity|].
  simpl. exact (dropWhile_first _ _ _ _ Ed).
Qed.

Lemma match_3nl_none c t :
  match_3nl (c :: t) = None -> is_LF c = true -> head_is is_LF t = true ->
  head_is is_LF (tl t) = false.
Proof.
  intros E Hc Ht.
  destruct t as [|b [|d t]]; simpl in *; try reflexivity.
  rewrite Hc, Ht in E. simpl in E.
  destruct (is_LF d); [discriminate|reflexivity].
Qed.

Lemma replace_3nl_keeps_clean s :
  has_blank_before_nl s = false ->
  has_blank_before_nl (replace_3nl s) = false.
Proof.
  funelim (replace_3nl s); intros Hs.
  - reflexivity.
  - destruct (match_3nl_suffix _ _ e) as [pre Hp].
    rewrite Hp in Hs. apply has_blank_before_nl_suffix in Hs.
    rewrite !has_blank_before_nl_cons. rewrite (H Hs). reflexivity.
  - rewrite has_blank_before_nl_cons in Hs. apply orb_false_iff in Hs.
    destruct Hs as [H1 H2].
    rewrite has_blank_before_nl_cons, replace_3nl_head, H1. simpl. auto.
Qed.

Lemma replace_3nl_collapsed s : has_3nl (replace_3nl s) = false.
Proof.
  funelim (replace_3nl s).
  - reflexivity.
  - pose proof (match_3nl_rest _ _ e) as Hr.
    rewrite !has_3nl_cons. cbn [tl]. rewrite !replace_3nl_head, Hr, H.
    cbn [head_is]. rewrite !andb_false_r. reflexivity.
  - rewrite has_3nl_cons, H, orb_false_r.
    destruct (is_LF c) eqn:Hc; [|reflexivity].
    destruct (head_is is_LF (replace_3nl t)) eqn:H1; [|reflexivity].
    destruct (head_is is_LF (tl (replace_3nl t))) eqn:H2; [|reflexivity].
    rewrite replace_3nl_head in H1. apply replace_3nl_second in H2.
    pose proof (match_3nl_none _ _ e Hc H1) as H3. congruence.
Qed.

Lemma In_dropWhile f s x : In x (dropWhile f s) -> In x s.
Proof.
  destruct (dropWhile_suffix f s) as [pre Hp]. intros H.
  rewrite Hp. apply in_or_app. right. exact H.
Qed.

Lemma In_trim s x : In x (trim s) -> In x s.
Proof.
  unfold trim, trimEnd, trimStart. intros H.
  apply In_dropWhile with (f := is_whitespace).
  apply in_rev. apply In_dropWhile with (f := is_whitespace).
  apply in_rev. exact H.
Qed.

Lemma In_replace_blanks_nl s x :
  In x (replace_blanks_nl s) -> In x s \/ x = LF.
Proof.
  funelim (replace_blanks_nl s); simpl.
  - tauto.
  - destruct (match_blanks_nl_suffix _ _ e) as [pre Hp].
    intros [<-|Hx]; [now right|].
    destruct (H _ Hx) as [Hr|Hr]; [left|now right].
    change (In x (c :: t)). rewrite Hp. apply in_or_app. right. now right.
  - intros [<-|Hx]; [now left; left|].
    destruct (H _ Hx); tauto.
Qed.

Lemma In_replace_3nl s x : In x (replace_3nl s) -> In x s \/ x = LF.
Proof.
  funelim (replace_3nl s); simpl.
  - tauto.
  - destruct (match_3nl_suffix _ _ e) as [pre Hp].
    intros [<-|[<-|Hx]]; [now right|now right|].
    destruct (H _ Hx) as [Hr|Hr]; [left|now right].
    change (In x (c :: t)). rewrite Hp. apply in_or_app. now right.
  - intros [<-|Hx]; [now left; left|].
    destruct (H _ Hx); tauto.
Qed.

Lemma replaceAll_CR_no_CR s : ~ In CR (replaceAll [CR] [LF] s).
Proof.
  unfold replaceAll. induction s as [|c t IH]; [simpl; tauto|].
  cbn [replaceAll_from startsWith].
  destruct (N.eqb CR c) eqn:E;
    cbn [andb app List.length Nat.pred In]; intros H; destruct H as [H|H].
  - discriminate.
  - exact (IH H).
  - subst c. discriminate.
  - exact (IH H).
Qed.

Lemma has_CR_false s : ~ In CR s -> has_CR s = false.
Proof.
  intros H. unfold has_CR. destruct (existsb (N.eqb CR) s) eqn:E; [|reflexivity].
  apply existsb_exists in E. destruct E as [x [Hx E]].
  apply N.eqb_eq in E. subst x. contradiction.
Qed.

Lemma trim_infix s : exists pre post, s = pre ++ trim s ++ post.
Proof.
  unfold trim, trimEnd, trimStart.
  destruct (dropWhile_suffix is_whitespace s) as [pre Hp].
  set (m := dropWhile is_whitespace s) in *.
  destruct (dropWhile_suffix is_whitespace (rev m)) as [q Hq].
  exists pre, (rev q).
  rewrite <- rev_app_distr, <- Hq, rev_involutive. exact Hp.
Qed.

Lemma dropWhile_keeps_last f l c :
  f c = false -> exists q, dropWhile f (l ++ [c]) = q ++ [c].
Proof.
  intros Hc. induction l as [|d l IH]; simpl.
  - rewrite Hc. exists []. reflexivity.
  - destruct (f d); [exact IH|]. exists (d :: l). reflexivity.
Qed.

Lemma trim_start s : starts_with_whitespace (trim s) = false.
Proof.
  unfold trim, trimEnd, trimStart, starts_with_whitespace.
  destruct (dropWhile is_whitespace s) as [|c t] eqn:E; [reflexivity|].
  pose proof (dropWhile_first _ _ _ _ E) as Hc.
  simpl rev. destruct (dropWhile_keeps_last is_whitespace (rev t) c Hc) as [q Hq].
  rewrite Hq, rev_app_distr. simpl. exact Hc.
Qed.

Lemma trim_end s : ends_with_whitespace (trim s) = false.
Proof.
  unfold trim, trimEnd, ends_with_whitespace, starts_with_whitespace.
  rewrite rev_involutive.
  destruct (dropWhile is_whitespace (rev (trimStart s))) as [|c t] eqn:E;
    [reflexivity|].
  simpl. exact (dropWhile_first _ _ _ _ E).
Qed.

(** [normalizeText] answers fully newline-normalized text, whatever it is
    given. *)
Lemma normalizeText_normalized raw :
  normalized (ResumeUpload.normalizeText raw) = true.
Proof.
  unfold ResumeUpload.normalizeText, normalized.
  set (a := replaceAll [CR] [LF] _).
  set (b := replace_blanks_nl a).
  set (c := replace_3nl b).
  destruct (trim_infix c) as [pre [post Hc]].
  assert (H1 : has_CR (trim c) = false).
  { apply has_CR_false. intros H. apply In_trim in H.
    apply In_replace_3nl in H. destruct H as [H|H]; [|discriminate].
    apply In_replace_blanks_nl in H. destruct H as [H|H]; [|discriminate].
    exact (replaceAll_CR_no_CR _ H). }
  assert (H2 : has_blank_before_nl (trim c) = false).
  { pose proof (replace_3nl_keeps_clean b (replace_blanks_nl_clean a)) as H.
    fold c in H. rewrite Hc in H.
    apply has_blank_before_nl_suffix, has_blank_before_nl_prefix in H.
    exact H. }
  assert (H3 : has_3nl (trim c) = false).
  { pose proof (replace_3nl_collapsed b) as H. fold c in H. rewrite Hc in H.
    apply has_3nl_suffix, has_3nl_prefix in H. exact H. }
  rewrite H1, H2, H3, trim_start, trim_end. reflexivity.
Qed.

Example normalizeText_sample :
  ResumeUpload.normalizeText
    (lit " Jane " ++ [CR; LF; TAB; LF; CR; CR] ++ lit "Engineer  " ++ [LF])
  = lit "Jane" ++ [LF; LF] ++ lit "Engineer".
Proof. reflexivity. Qed.

(** *** Running a handler in a proof *)

(** The test a stuck run is waiting for: the innermost scrutinee along the
    chain of binds. *)
Ltac first_test t :=
  match t with
  | match ?x with _ => _ end => first_test x
  | ?f _ => first_test_head f
  | _ (match ?x with _ => _ end) => first_test x
  | _ => t
  end
with first_test_head f :=
  lazymatch f with
  | match ?x with _ => _ end => first_test x
  | ?g _ => first_test_head g
  end.

Ltac exec E :=
  cbv beta iota zeta delta
    [bind ret reply throw return_if log get_credits modify_credits
     read_body requireEnv createClient try_catch trace credits start
     profErr profile ResumeUpload.makeSupabaseAuthed
     CoverLetter.POST CoverLetter.handle CoverLetter.callOpenAI
     GenerateResume.POST GenerateResume.handle GenerateResume.callOpenAI
     TailorResume.POST TailorResume.handle
     ResumeUpload.POST ResumeUpload.handle ResumeUpload.makeSupabase
     EnvCheck.GET App.serve] in E.

(** One step of a run [E : handler ... = (resp, st)]: split on the test it
    is waiting for, or conclude when it has ended. *)
Ltac step E :=
  lazymatch type of E with
  | (_, _) = (_, _) => fail
  | ?lhs = _ =>
      let x := first_test lhs in
      destruct x eqn:?; exec E
  end.

Ltac finish E :=
  lazymatch type of E with
  | (_, _) = (_, _) => injection E as <- <-
  end.

(** All the paths of a run. *)
Ltac paths E := exec E; repeat step E; finish E.

(** The token test of the handlers that read the header as
    [req.headers.get("authorization") || ""]. *)
Lemma token_of_header {B} (req : Request B) :
  (if startsWith (lit "Bearer ") (or_else (authorization req) [])
   then Some (slice 7 (or_else (authorization req) []))
   else None) = bearer_token req.
Proof.
  unfold bearer_token. destruct (authorization req) as [[|x h]|]; reflexivity.
Qed.

Ltac use_token E :=
  change (List.length (lit "Bearer ")) with 7%nat in E;
  try rewrite token_of_header in E;
  try change (match authorization ?r with
              | Some h =>
                  if startsWith (lit "Bearer ") h
                  then Some (slice 7 h) else None
              | None => None
              end) with (bearer_token r) in E.

Lemma or_else_some_nil m : or_else (Some m) [] = m.
Proof. destruct m; reflexivity. Qed.

(** ** The claims *)

(** C1, as amended.  A request without a bearer token is answered 401 by
    each of the four POST routes, before anything outside is called, once
    what comes ahead of the header test has gone through (the database URL
    and key are in the environment for the cover-letter and
    resume-generation handlers, the key of the completion API is in the
    environment for the tailoring module, which builds its SDK client
    when it loads, the cookie client is built for the upload handler); the
    GET handler that reports the environment keys tests no header and
    answers 200. *)
Theorem anonymous_request_answer W r req c :
  no_bearer req = true ->
  setup_ok W r = true ->
  status (fst (App.serve W r req (start c))) =
    match r with App.env_check_route => 200%N | _ => 401%N end /\
  trace (snd (App.serve W r req (start c))) = [] /\
  is_error (fst (App.serve W r req (start c))) =
    match r with App.env_check_route => false | _ => true end.
Proof.
  intros Hreq Hsetup. unfold no_bearer in Hreq.
  destruct (App.serve W r req (start c)) as [resp st] eqn:E.
  destruct r; cbn [App.body_of] in *; exec E; use_token E;
    cbn [setup_ok] in Hsetup;
    try (apply andb_prop in Hsetup; destruct Hsetup as [Hurl Hkey]);
    try (destruct (env W "NEXT_PUBLIC_SUPABASE_URL") as [u|];
         [|discriminate];
         destruct (env W "NEXT_PUBLIC_SUPABASE_ANON_KEY") as [k|];
         [|discriminate];
         cbn [truthy_opt] in Hurl, Hkey; rewrite Hurl, Hkey in E);
    try (destruct (cookies_client_throws W); [discriminate|]);
    try rewrite Hreq in E;
    injection E as <- <-; repeat split.
Qed.

Lemma anonymous_request_answer_witness :
  let run :=
    App.serve Examples.world App.cover_letter_route
      (Examples.anonymous Examples.cover_letter_body) (start None) in
  status (fst run) = 401%N /\ trace (snd run) = [] /\ is_error (fst run) = true.
Proof.
  apply (anonymous_request_answer Examples.world App.cover_letter_route
           (Examples.anonymous Examples.cover_letter_body) None);
    reflexivity.
Defined.

(** C1, as stated, fails: the GET handler answers a request without any
    header 200; and where the environment lacks the database URL the
    cover-letter handler throws ahead of its header test and answers 500. *)
Lemma anonymous_request_not_401 :
  no_bearer (Examples.anonymous tt) = true /\
  status (fst (App.serve Examples.world App.env_check_route
                 (Examples.anonymous tt) (start None))) = 200%N /\
  no_bearer (Examples.anonymous Examples.cover_letter_body) = true /\
  status (fst (App.serve Examples.world_without_env App.cover_letter_route
                 (Examples.anonymous Examples.cover_letter_body)
                 (start None))) = 500%N.
Proof. repeat split. Qed.

(** C2, as amended.  A generation route answers either status 200 with a
    body whose fields are [document] and [creditsRemaining] (cover letter,
    resume generation) or [document] alone (resume tailoring), or another
    status with a body [{ error }]. *)
Theorem generation_response_shape W r req c :
  App.generation_route r = true ->
  (status (fst (App.serve W r req (start c))) = 200%N /\
   keys (body (fst (App.serve W r req (start c)))) =
     match r with
     | App.tailor_resume_route => ["document"%string]
     | _ => ["document"%string; "creditsRemaining"%string]
     end) \/
  (status (fst (App.serve W r req (start c))) <> 200%N /\
   exists msg, body (fst (App.serve W r req (start c))) = error_body msg).
Proof.
  intros Hr.
  destruct (App.serve W r req (start c)) as [resp st] eqn:E.
  destruct r; try discriminate Hr; cbn [App.body_of] in *; paths E;
    cbn [fst status body json json_ok keys List.map];
    first [ left; split; reflexivity
          | right; split; [discriminate | eexists; reflexivity] ].
Qed.

Lemma generation_response_shape_witness :
  let resp :=
    fst (App.serve Examples.world App.resume_generate_route
           (Examples.authorized Examples.generate_body) (start None)) in
  status resp = 200%N /\
  keys (body resp) = ["document"%string; "creditsRemaining"%string].
Proof.
  destruct (generation_response_shape Examples.world
              App.resume_generate_route
              (Examples.authorized Examples.generate_body) None eq_refl)
    as [H|[H _]].
  - exact H.
  - exfalso. apply H. reflexivity.
Defined.

(** C2, as stated, fails: a successful tailoring request is answered with
    a [document] and no [creditsRemaining]. *)
Lemma tailor_success_without_creditsRemaining :
  let resp :=
    fst (App.serve Examples.world App.tailor_resume_route
           (Examples.authorized Examples.tailor_body) (start (Some 3%Z))) in
  status resp = 200%N /\
  has_key "document" (body resp) = true /\
  has_key "creditsRemaining" (body resp) = false.
Proof. repeat split. Qed.

(** C3, as amended.  In the cover-letter and resume-generation routes the
    steps come in the order token validation, credit decrement, completion
    call, row insert, and then the response; in the resume-tailoring route
    the order is token validation, completion call, row insert, credit
    decrement, and then the response.  A run may stop early: its steps are
    an initial segment of that order, and all of it when the answer is
    200. *)
Theorem generation_step_order W r req c :
  App.generation_route r = true ->
  let order :=
    match r with
    | App.tailor_resume_route => tailor_order
    | _ => spec_order
    end in
  is_prefix (steps (trace (snd (App.serve W r req (start c))))) order = true /\
  (status (fst (App.serve W r req (start c))) = 200%N ->
   steps (trace (snd (App.serve W r req (start c)))) = order).
Proof.
  intros Hr order. subst order.
  destruct (App.serve W r req (start c)) as [resp st] eqn:E.
  destruct r; try discriminate Hr; cbn [App.body_of] in *; paths E;
    cbn [fst snd status trace json json_ok];
    (split; [reflexivity | intros H; first [discriminate H | reflexivity]]).
Qed.

Lemma generation_step_order_witness :
  let run :=
    App.serve Examples.world App.cover_letter_route
      (Examples.authorized Examples.cover_letter_body) (start None) in
  is_prefix (steps (trace (snd run))) spec_order = true /\
  (status (fst run) = 200%N -> steps (trace (snd run)) = spec_order).
Proof.
  apply (generation_step_order Examples.world App.cover_letter_route
           (Examples.authorized Examples.cover_letter_body) None).
  reflexivity.
Defined.

(** C3, as stated, fails: a successful tailoring request decrements the
    credit balance after the completion call and after the insert. *)
Lemma tailor_decrements_last :
  let run :=
    App.serve Examples.world App.tailor_resume_route
      (Examples.authorized Examples.tailor_body) (start (Some 3%Z)) in
  App.generation_route App.tailor_resume_route = true /\
  steps (trace (snd run)) =
    [token_validation; completion_call; row_insert; credit_decrement] /\
  is_prefix (steps (trace (snd run))) spec_order = false.
Proof. repeat split. Qed.

(** C4, as amended.  A tailoring request that succeeds has read
    [credits_remaining] before the completion call and, after the insert,
    has written that value minus 1 with a plain update, never calling
    [consume_credits].  When the update goes through, the stored balance
    is the value read minus 1, whatever other requests did to the balance
    in between; when the update fails, the route answers 200 all the same
    and the stored balance is what the other requests made of it. *)
Theorem tailor_credit_write W req c :
  status (fst (TailorResume.POST W req (start c))) = 200%N ->
  exists balance jobId row,
    c = Some balance /\
    trace (snd (TailorResume.POST W req (start c))) =
      [GetUser;
       SelectProfile {| profErr := None; profile := Some balance |};
       SelectJob jobId; Completion; InsertDocument row;
       UpdateCredits (balance - 1)]
      ++ match profiles_update_error W with
         | None => [InsertCreditTransaction]
         | Some _ => []
         end /\
    existsb is_consume_credits
      (trace (snd (TailorResume.POST W req (start c)))) = false /\
    credits (snd (TailorResume.POST W req (start c)))
      = Some match profiles_update_error W with
             | None => (balance - 1)%Z
             | Some _ => other_requests W balance
             end.
Proof.
  destruct (TailorResume.POST W req (start c)) as [resp st] eqn:E.
  paths E; cbn [fst snd status trace credits json]; intros H;
    try discriminate H.
  all: cbn [profErr profile] in *; subst;
    eexists _, _, _; cbn [app option_map existsb is_consume_credits orb];
    (split; [reflexivity|]); (split; [reflexivity|]);
    (split; reflexivity).
Qed.

Lemma tailor_credit_write_witness :
  let run :=
    TailorResume.POST Examples.world
      (Examples.authorized Examples.tailor_body) (start (Some 3%Z)) in
  other_requests Examples.world 3 = 1%Z /\
  credits (snd run) = Some 2%Z.
Proof.
  split; [reflexivity|].
  destruct (tailor_credit_write Examples.world
              (Examples.authorized Examples.tailor_body) (Some 3%Z) eq_refl)
    as (balance & jobId & row & Hc & _ & _ & Hw).
  injection Hc as <-. exact Hw.
Defined.

(** C4, as stated, fails: where the update of the balance fails, a
    tailoring request succeeds (status 200) having read 3 and asked to
    write 2, and the stored balance is still 3, not the value read
    minus 1. *)
Lemma tailor_success_without_decrement :
  let run :=
    TailorResume.POST (MoreExamples.world_alone (Some (lit "timeout")))
      (Examples.authorized Examples.tailor_body) (start (Some 3%Z)) in
  status (fst run) = 200%N /\
  In (SelectProfile {| profErr := None; profile := Some 3%Z |})
     (trace (snd run)) /\
  In (UpdateCredits 2) (trace (snd run)) /\
  credits (snd run) = Some 3%Z /\
  credits (snd run) <> Some (3 - 1)%Z.
Proof.
  cbv zeta. split; [reflexivity|].
  split; [vm_compute; right; left; reflexivity|].
  split; [vm_compute; do 5 right; left; reflexivity|].
  split; [reflexivity|]. vm_compute. discriminate.
Qed.

(** C5.  Whenever the insufficient-credits condition is signalled to a
    route (the [consume_credits] procedure answers an error whose message
    contains [INSUFFICIENT_CREDITS], in the cover-letter and the
    resume-generation route; the balance read is not positive, in the
    resume-tailoring route) the route answers status 402 with a body
    [{ error }]. *)
Theorem insufficient_credits_402 W r req c :
  existsb signals_insufficient
    (trace (snd (App.serve W r req (start c)))) = true ->
  status (fst (App.serve W r req (start c))) = 402%N /\
  exists msg, body (fst (App.serve W r req (start c))) = error_body msg.
Proof.
  destruct (App.serve W r req (start c)) as [resp st] eqn:E.
  destruct r; cbn [App.body_of] in *; paths E;
    cbn [fst snd status body trace json json_ok existsb
         signals_insufficient orb profErr profile];
    intros H; try discriminate H;
    repeat match goal with
           | Heq : ?x = _ |- _ =>
               tryif constr_eq Heq H then fail else
               match type of H with context [x] => rewrite Heq in H end
           end;
    try discriminate H;
    try (rewrite ?or_else_some_nil in *; rewrite ?orb_false_r in H;
         congruence);
    (split; [reflexivity | eexists; reflexivity]).
Qed.

Lemma insufficient_credits_402_witness :
  let run :=
    App.serve Examples.world_out_of_credits App.cover_letter_route
      (Examples.authorized Examples.cover_letter_body) (start None) in
  status (fst run) = 402%N /\ exists msg, body (fst run) = error_body msg.
Proof.
  apply (insufficient_credits_402 Examples.world_out_of_credits
           App.cover_letter_route
           (Examples.authorized Examples.cover_letter_body) None).
  reflexivity.
Defined.




(** C7.  An upload whose file reads back as a buffer of length zero is
    answered 400, and neither the PDF parser nor the DOCX parser is called
    on that request. *)
Theorem empty_upload_rejected W req c :
  In (ArrayBuffer []) (trace (snd (ResumeUpload.POST W req (start c)))) ->
  status (fst (ResumeUpload.POST W req (start c))) = 400%N /\
  is_error (fst (ResumeUpload.POST W req (start c))) = true /\
  existsb is_parser_call
    (trace (snd (ResumeUpload.POST W req (start c)))) = false.
Proof.
  destruct (ResumeUpload.POST W req (start c)) as [resp st] eqn:E.
  paths E; cbn [fst snd trace status json In]; intros H;
    repeat (destruct H as [H|H]; try discriminate H); try contradiction;
    injection H as H;
    match goal with
    | Hlen : (List.length ?b =? 0)%nat = _ |- _ => rewrite H in Hlen
    end;
    first [discriminate | repeat split].
Qed.

Lemma empty_upload_rejected_witness :
  let run :=
    ResumeUpload.POST Examples.world
      (Examples.authorized Examples.empty_file) (start None) in
  status (fst run) = 400%N /\ is_error (fst run) = true /\
  existsb is_parser_call (trace (snd run)) = false.
Proof.
  apply (empty_upload_rejected Examples.world
           (Examples.authorized Examples.empty_file) None).
  right. left. reflexivity.
Defined.

(** C8, as amended.  Every error response of every route has a status
    among 400, 401, 402, 404 and 500 and a body [{ error }] with a string;
    any other response has status 200. *)
Theorem error_response_shape W r req c :
  (is_error (fst (App.serve W r req (start c))) = true ->
   In (status (fst (App.serve W r req (start c))))
      [400%N; 401%N; 402%N; 404%N; 500%N] /\
   exists msg, body (fst (App.serve W r req (start c))) = error_body msg) /\
  (is_error (fst (App.serve W r req (start c))) = false ->
   status (fst (App.serve W r req (start c))) = 200%N).
Proof.
  destruct (App.serve W r req (start c)) as [resp st] eqn:E.
  destruct r; cbn [App.body_of] in *; paths E;
    cbn [fst status body json json_ok];
    (split; intros H;
     [ first [ discriminate H
             | split; [cbn [In]; tauto | eexists; reflexivity] ]
     | first [discriminate H | reflexivity] ]).
Qed.

Lemma error_response_shape_witness :
  let resp :=
    fst (App.serve Examples.world_without_job App.cover_letter_route
           (Examples.authorized Examples.cover_letter_body) (start None)) in
  In (status resp) [400%N; 401%N; 402%N; 404%N; 500%N] /\
  exists msg, body resp = error_body msg.
Proof.
  apply (error_response_shape Examples.world_without_job
           App.cover_letter_route
           (Examples.authorized Examples.cover_letter_body) None).
  reflexivity.
Defined.

(** C8, as stated, fails: where the database has no such job the
    cover-letter route answers an error with status 404. *)
Lemma job_not_found_404 :
  let resp :=
    fst (App.serve Examples.world_without_job App.cover_letter_route
           (Examples.authorized Examples.cover_letter_body) (start None)) in
  is_error resp = true /\
  status resp = 404%N /\
  ~ In (status resp) [400%N; 401%N; 402%N; 500%N].
Proof.
  repeat split. cbn. intros H.
  repeat (destruct H as [H|H]; [discriminate H|]). exact H.
Qed.

(** C9.  Every row the resume-upload route inserts into [documents] has a
    [content_text] that is fully newline-normalized (no carriage return, no
    space or tab immediately before a newline, no three newlines in a row,
    no whitespace at either end) and at least 200 code units long. *)
Theorem upload_rows_normalized W req c row :
  In (InsertDocument row) (trace (snd (ResumeUpload.POST W req (start c)))) ->
  normalized (content_text row) = true /\
  has_CR (content_text row) = false /\
  has_blank_before_nl (content_text row) = false /\
  has_3nl (content_text row) = false /\
  starts_with_whitespace (content_text row) = false /\
  ends_with_whitespace (content_text row) = false /\
  (200 <= List.length (content_text row))%nat.
Proof.
  destruct (ResumeUpload.POST W req (start c)) as [resp st] eqn:E.
  paths E; cbn [snd trace In]; intros H;
    repeat (destruct H as [H|H]; try discriminate H); try contradiction;
    injection H as <-; cbn [content_text];
    match goal with
    | Hlen : (List.length (ResumeUpload.normalizeText ?x) <? 200)%nat = false
      |- _ =>
        apply Nat.ltb_ge in Hlen;
        pose proof (normalizeText_normalized x) as Hn;
        split; [exact Hn|];
        unfold normalized in Hn;
        repeat (apply andb_prop in Hn; destruct Hn as [Hn ?]);
        repeat match goal with
               | Hb : negb _ = true |- _ => apply negb_true_iff in Hb
               end;
        auto 10
    end.
Qed.

Lemma upload_rows_normalized_witness :
  In (InsertDocument Examples.text_row)
     (trace (snd (ResumeUpload.POST Examples.world
                    (Examples.authorized Examples.text_file) (start None)))) /\
  normalized (content_text Examples.text_row) = true /\
  (200 <= List.length (content_text Examples.text_row))%nat.
Proof.
  assert (Hin : In (InsertDocument Examples.text_row)
                  (trace (snd (ResumeUpload.POST Examples.world
                                 (Examples.authorized Examples.text_file)
                                 (start None))))).
  { vm_compute. right. right. left. reflexivity. }
  split; [exact Hin|].
  destruct (upload_rows_normalized Examples.world
              (Examples.authorized Examples.text_file) None
              Examples.text_row Hin) as (H1 & _ & _ & _ & _ & _ & H7).
  split; [exact H1|exact H7].
Defined.

(** ** Further properties of the code *)

(** *** [normalizeText] *)

Lemma replaceAll_absent pat rep s :
  ~ In (hd 0%N pat) s -> pat <> [] -> replaceAll pat rep s = s.
Proof.
  intros Hs Hp. destruct pat as [|p pat]; [congruence|]. simpl in Hs.
  unfold replaceAll. induction s as [|c t IH]; [reflexivity|].
  cbn [replaceAll_from startsWith].
  destruct (N.eqb p c) eqn:E.
  - apply N.eqb_eq in E. subst c. elim Hs. now left.
  - cbn [andb]. rewrite IH; [reflexivity|].
    intros H. apply Hs. now right.
Qed.

Lemma has_CR_false_inv s : has_CR s = false -> ~ In CR s.
Proof.
  unfold has_CR. intros H Hin.
  assert (existsb (N.eqb CR) s = true).
  { apply existsb_exists. exists CR. split; [exact Hin|apply N.eqb_refl]. }
  congruence.
Qed.

Lemma blank_run_then_nl c t d rest :
  is_blank c = true -> dropWhile is_blank t = d :: rest -> is_LF d = true ->
  has_blank_before_nl (c :: t) = true.
Proof.
  revert c. induction t as [|x t IH]; intros c Hc Hd Hlf; [discriminate|].
  rewrite has_blank_before_nl_cons. cbn [dropWhile] in Hd.
  destruct (is_blank x) eqn:Hx.
  - rewrite (IH x Hx Hd Hlf). apply orb_true_r.
  - injection Hd as -> ->. cbn [head_is]. rewrite Hc, Hlf. reflexivity.
Qed.

Lemma match_blanks_nl_found s rest :
  match_blanks_nl s = Some rest -> has_blank_before_nl s = true.
Proof.
  destruct s as [|c t]; [discriminate|]. cbn [match_blanks_nl].
  destruct (is_blank c) eqn:Hc; [|discriminate].
  destruct (dropWhile is_blank t) as [|d r] eqn:Hd; [discriminate|].
  destruct (is_LF d) eqn:Hlf; [|discriminate].
  intros _. exact (blank_run_then_nl c t d r Hc Hd Hlf).
Qed.

Lemma match_3nl_found s rest :
  match_3nl s = Some rest -> has_3nl s = true.
Proof.
  destruct s as [|a [|b [|c t]]]; try discriminate. cbn [match_3nl].
  destruct (is_LF a && is_LF b && is_LF c) eqn:E; [|discriminate].
  intros _. rewrite has_3nl_cons. cbn [head_is tl]. rewrite E. reflexivity.
Qed.

Lemma replace_blanks_nl_clean_id s :
  has_blank_before_nl s = false -> replace_blanks_nl s = s.
Proof.
  funelim (replace_blanks_nl s); intros Hs.
  - reflexivity.
  - pose proof (match_blanks_nl_found _ _ e). congruence.
  - rewrite has_blank_before_nl_cons in Hs. apply orb_false_iff in Hs.
    destruct Hs as [_ Hs]. rewrite (H Hs). reflexivity.
Qed.

Lemma replace_3nl_collapsed_id s : has_3nl s = false -> replace_3nl s = s.
Proof.
  funelim (replace_3nl s); intros Hs.
  - reflexivity.
  - pose proof (match_3nl_found _ _ e). congruence.
  - rewrite has_3nl_cons in Hs. apply orb_false_iff in Hs.
    destruct Hs as [_ Hs]. rewrite (H Hs). reflexivity.
Qed.

Lemma dropWhile_id f s : head_is f s = false -> dropWhile f s = s.
Proof. destruct s as [|c t]; simpl; [reflexivity|]. now intros ->. Qed.

Lemma trim_trimmed s :
  starts_with_whitespace s = false -> ends_with_whitespace s = false ->
  trim s = s.
Proof.
  unfold trim, trimStart, trimEnd, starts_with_whitespace, ends_with_whitespace.
  intros Hs He. rewrite (dropWhile_id _ _ Hs), (dropWhile_id _ _ He).
  apply rev_involutive.
Qed.

(** X1.  [normalizeText] is idempotent: text that has been normalized comes
    back unchanged. *)
Theorem normalizeText_idempotent raw :
  ResumeUpload.normalizeText (ResumeUpload.normalizeText raw)
  = ResumeUpload.normalizeText raw.
Proof.
  pose proof (normalizeText_normalized raw) as Hn.
  set (n := ResumeUpload.normalizeText raw) in *.
  unfold normalized in Hn.
  repeat (apply andb_prop in Hn; destruct Hn as [Hn ?]).
  repeat match goal with
         | Hb : negb _ = true |- _ => apply negb_true_iff in Hb
         end.
  unfold ResumeUpload.normalizeText.
  assert (Hcr : ~ In CR n) by now apply has_CR_false_inv.
  rewrite (replaceAll_absent [CR; LF] [LF] n Hcr) by discriminate.
  rewrite (replaceAll_absent [CR] [LF] n Hcr) by discriminate.
  rewrite replace_blanks_nl_clean_id by assumption.
  rewrite replace_3nl_collapsed_id by assumption.
  apply trim_trimmed; assumption.
Qed.

Lemma startsWith_length p s :
  startsWith p s = true -> (List.length p <= List.length s)%nat.
Proof.
  revert s. induction p as [|x p IH]; intros [|y s]; simpl; try lia;
    try discriminate.
  intros H. apply andb_prop in H. destruct H as [_ H].
  specialize (IH _ H). lia.
Qed.

Lemma replaceAll_from_length pat rep k s :
  (List.length rep <= List.length pat)%nat ->
  (List.length (replaceAll_from pat rep k s) + Nat.min k (List.length s)
   <= List.length s)%nat.
Proof.
  intros Hrep. revert k. induction s as [|c t IH]; intros k.
  - simpl. lia.
  - cbn [replaceAll_from]. destruct k as [|k].
    + destruct (startsWith pat (c :: t)) eqn:E.
      * apply startsWith_length in E. cbn [List.length] in E.
        specialize (IH (Nat.pred (List.length pat))).
        rewrite length_app. cbn [List.length]. lia.
      * specialize (IH O). cbn [List.length]. lia.
    + specialize (IH k). cbn [List.length]. lia.
Qed.

Lemma replaceAll_length pat rep s :
  (List.length rep <= List.length pat)%nat ->
  (List.length (replaceAll pat rep s) <= List.length s)%nat.
Proof.
  intros H. pose proof (replaceAll_from_length pat rep O s H).
  unfold replaceAll. lia.
Qed.

Lemma dropWhile_shorter f s :
  (List.length (dropWhile f s) <= List.length s)%nat.
Proof.
  destruct (dropWhile_suffix f s) as [pre Hp].
  rewrite Hp at 2. rewrite length_app. lia.
Qed.

Lemma trim_length s : (List.length (trim s) <= List.length s)%nat.
Proof.
  unfold trim, trimEnd, trimStart. rewrite length_rev.
  pose proof (dropWhile_shorter is_whitespace
                (rev (dropWhile is_whitespace s))) as H1.
  rewrite length_rev in H1.
  pose proof (dropWhile_shorter is_whitespace s). lia.
Qed.

Lemma replace_blanks_nl_length s :
  (List.length (replace_blanks_nl s) <= List.length s)%nat.
Proof.
  funelim (replace_blanks_nl s).
  - simpl. lia.
  - destruct (match_blanks_nl_suffix _ _ e) as [pre Hp].
    pose proof (f_equal (@List.length N) Hp) as Hl.
    rewrite length_app in Hl. cbn [List.length] in *. lia.
  - cbn [List.length]. lia.
Qed.

Lemma match_3nl_length s rest :
  match_3nl s = Some rest -> (List.length rest + 3 <= List.length s)%nat.
Proof.
  destruct s as [|a [|b [|d t]]]; try discriminate. cbn [match_3nl].
  destruct (is_LF a && is_LF b && is_LF d); [|discriminate].
  intros [= <-]. pose proof (dropWhile_shorter is_LF t).
  cbn [List.length]. lia.
Qed.

Lemma replace_3nl_length s :
  (List.length (replace_3nl s) <= List.length s)%nat.
Proof.
  funelim (replace_3nl s).
  - simpl. lia.
  - pose proof (match_3nl_length _ _ e) as Hl.
    cbn [List.length] in *. lia.
  - cbn [List.length]. lia.
Qed.

(** X2.  [normalizeText] never makes a text longer. *)
Theorem normalizeText_length raw :
  (List.length (ResumeUpload.normalizeText raw) <= List.length raw)%nat.
Proof.
  unfold ResumeUpload.normalizeText.
  pose proof (replaceAll_length [CR; LF] [LF] raw) as H1.
  pose proof (replaceAll_length [CR] [LF]
                (replaceAll [CR; LF] [LF] raw)) as H2.
  pose proof (replace_blanks_nl_length
                (replaceAll [CR] [LF] (replaceAll [CR; LF] [LF] raw))) as H3.
  pose proof (replace_3nl_length
                (replace_blanks_nl
                   (replaceAll [CR] [LF]
                      (replaceAll [CR; LF] [LF] raw)))) as H4.
  pose proof (trim_length
                (replace_3nl
                   (replace_blanks_nl
                      (replaceAll [CR] [LF]
                         (replaceAll [CR; LF] [LF] raw))))) as H5.
  cbn [List.length] in H1, H2.
  specialize (H1 ltac:(lia)). specialize (H2 ltac:(lia)). lia.
Qed.

(** *** What the routes insert, call and answer *)

(** From [In e t] for a trace [t] a run has produced: the event it is. *)
Ltac in_trace H :=
  cbn [fst snd trace In] in H;
  repeat (destruct H as [H|H]; try discriminate H); try contradiction.

(** X3.  Every row a route inserts is owned by the user the identity
    provider vouched for, and has the type of its route. *)
Theorem inserted_row_owner W r req c row :
  In (InsertDocument row) (trace (snd (App.serve W r req (start c)))) ->
  userErr (auth_getUser W) = None /\
  exists u, user (auth_getUser W) = Some u /\
            user_id row = id u /\
            route_doc_type r = Some (type row).
Proof.
  destruct (App.serve W r req (start c)) as [resp st] eqn:E.
  destruct r; cbn [App.body_of] in *; paths E; intros H; in_trace H;
    injection H as <-;
    (split; [reflexivity | eexists; repeat split]).
Qed.

Lemma inserted_row_owner_witness :
  user_id Examples.text_row = id Examples.alice /\
  route_doc_type App.resume_upload_route
  = Some (type Examples.text_row).
Proof.
  assert (Hin : In (InsertDocument Examples.text_row)
                  (trace (snd (App.serve Examples.world
                                 App.resume_upload_route
                                 (Examples.authorized Examples.text_file)
                                 (start None))))).
  { vm_compute. right. right. left. reflexivity. }
  destruct (inserted_row_owner Examples.world App.resume_upload_route
              (Examples.authorized Examples.text_file) None
              Examples.text_row Hin) as (_ & u & Hu & Hid & Hty).
  injection Hu as <-. split; assumption.
Defined.

(** X4.  Handling one request, a handler calls at most once each: the
    credit decrement ([consume_credits], or the update of the balance),
    the completion client ([fetch] in [callOpenAI],
    [openai.chat.completions.create] in the tailoring route: one call,
    whatever HTTP requests the SDK repeats inside it), a parser, and the
    insert of the document.  No handler calls a step again after a
    failure. *)
Theorem no_step_twice W r req c :
  (count is_credit_decrement
     (trace (snd (App.serve W r req (start c)))) <= 1)%nat /\
  (count is_completion (trace (snd (App.serve W r req (start c)))) <= 1)%nat /\
  (count is_parser_call (trace (snd (App.serve W r req (start c)))) <= 1)%nat /\
  (count is_insert (trace (snd (App.serve W r req (start c)))) <= 1)%nat.
Proof.
  destruct (App.serve W r req (start c)) as [resp st] eqn:E.
  destruct r; cbn [App.body_of] in *; paths E; cbn; lia.
Qed.

(** X5.  In the cover-letter and resume-generation routes (the routes that
    call [consume_credits]) the credit is taken before the completion call
    and is not given back: when [consume_credits] has answered without
    error and [callOpenAI] throws, the route answers 500 and inserts no
    document; when the key of the completion API is not in the
    environment, the completion API is not even called. *)
Theorem credit_spent_without_document W r req c reason result :
  In (ConsumeCredits reason result)
     (trace (snd (App.serve W r req (start c)))) ->
  creditErr result = None ->
  completion_fails W = true ->
  status (fst (App.serve W r req (start c))) = 500%N /\
  count is_insert (trace (snd (App.serve W r req (start c)))) = 0%nat /\
  (truthy_opt (env W "OPENAI_API_KEY") = false ->
   count is_completion (trace (snd (App.serve W r req (start c)))) = 0%nat).
Proof.
  unfold completion_fails.
  destruct (App.serve W r req (start c)) as [resp st] eqn:E.
  destruct r; cbn [App.body_of] in *; paths E; intros H Hok Hf; in_trace H;
    injection H as <- <-;
    cbn [truthy_opt negb orb] in Hf;
    try congruence;
    repeat match goal with
           | Hb : truthy _ = _ |- _ =>
               match type of Hf with context [truthy] =>
                 rewrite Hb in Hf
               end
           end;
    cbn [negb orb] in Hf;
    try discriminate Hf;
    try (repeat split; intros; cbn [truthy_opt] in *; cbn; congruence).
  all: match goal with
       | Ht : trim_opt ?content = Some _ |- _ =>
           destruct content; cbn [trim_opt option_map] in Ht;
           [injection Ht as <-|discriminate Ht]
       end;
    match goal with
    | Hb : truthy (trim _) = true |- _ => rewrite Hb in Hf
    end; discriminate Hf.
Qed.

Ltac use_eqs_goal :=
  repeat match goal with
         | Heq : ?x = _ |- context [?x] => rewrite Heq
         end.

(** X6.  A generation route inserts a document only after the caller has
    passed the credit check: [consume_credits] has answered without error
    (cover letter, resume generation) or the balance read is positive
    (resume tailoring). *)
Theorem insert_only_after_credit_check W r req c :
  App.generation_route r = true ->
  inserts_paid false (trace (snd (App.serve W r req (start c)))) = true.
Proof.
  intros Hr.
  destruct (App.serve W r req (start c)) as [resp st] eqn:E.
  destruct r; try discriminate Hr; cbn [App.body_of] in *; paths E;
    cbn [snd trace inserts_paid is_insert passes_credit_check orb andb
         profErr profile];
    use_eqs_goal; try reflexivity.
  all: match goal with
       | Hb : (?z <=? 0)%Z = false |- _ =>
           apply Z.leb_gt in Hb; apply Z.ltb_lt in Hb; rewrite Hb; reflexivity
       end.
Qed.

Lemma insert_only_after_credit_check_witness :
  inserts_paid false
    (trace (snd (App.serve Examples.world App.tailor_resume_route
                   (Examples.authorized Examples.tailor_body)
                   (start (Some 3%Z))))) = true.
Proof.
  apply (insert_only_after_credit_check Examples.world
           App.tailor_resume_route
           (Examples.authorized Examples.tailor_body) (Some 3%Z)).
  reflexivity.
Defined.

(** X7.  A 402 answer means nothing was generated or stored and no credit
    check was passed: the handler has made no completion call, no insert
    and no write of the balance; and in the tailoring route, the one route
    that reads and writes the balance itself, the stored balance is as it
    was. *)
Theorem payment_required_is_free W r req c :
  status (fst (App.serve W r req (start c))) = 402%N ->
  count is_completion (trace (snd (App.serve W r req (start c)))) = 0%nat /\
  count is_insert (trace (snd (App.serve W r req (start c)))) = 0%nat /\
  existsb passes_credit_check
    (trace (snd (App.serve W r req (start c)))) = false /\
  count is_balance_write
    (trace (snd (App.serve W r req (start c)))) = 0%nat /\
  (r = App.tailor_resume_route ->
   credits (snd (App.serve W r req (start c))) = c).
Proof.
  destruct (App.serve W r req (start c)) as [resp st] eqn:E.
  destruct r; cbn [App.body_of] in *; paths E;
    cbn [fst status json json_ok]; intros H; try discriminate H;
    cbn [snd trace credits count filter is_completion is_insert existsb
         is_balance_write passes_credit_check orb List.length profErr
         profile];
    use_eqs_goal; repeat split; try reflexivity; try discriminate.
  all: match goal with
       | Hb : (?z <=? 0)%Z = true |- _ =>
           apply Z.leb_le in Hb;
           destruct (Z.ltb_spec 0 z); [lia|reflexivity]
       end.
Qed.

Lemma payment_required_is_free_witness :
  let run :=
    App.serve Examples.world App.tailor_resume_route
      (Examples.authorized Examples.tailor_body) (start (Some 0%Z)) in
  count is_completion (trace (snd run)) = 0%nat /\
  count is_insert (trace (snd run)) = 0%nat /\
  existsb passes_credit_check (trace (snd run)) = false /\
  count is_balance_write (trace (snd run)) = 0%nat /\
  credits (snd run) = Some 0%Z.
Proof.
  destruct (payment_required_is_free Examples.world App.tailor_resume_route
              (Examples.authorized Examples.tailor_body) (Some 0%Z) eq_refl)
    as (H1 & H2 & H3 & H4 & H5).
  split; [exact H1|]. split; [exact H2|]. split; [exact H3|].
  split; [exact H4|]. exact (H5 eq_refl).
Defined.

(** X8.  When the identity provider does not vouch for the caller
    ([userErr || !user]) a POST route calls nothing but the identity
    provider (no database, completion or parser call), leaves the balance
    alone and does not answer 200. *)
Theorem unauthenticated_calls_nothing W r req c :
  r <> App.env_check_route ->
  auth_fails W = true ->
  forallb is_get_user (trace (snd (App.serve W r req (start c)))) = true /\
  credits (snd (App.serve W r req (start c))) = c /\
  status (fst (App.serve W r req (start c))) <> 200%N.
Proof.
  intros Hr Hf. unfold auth_fails in Hf.
  destruct (App.serve W r req (start c)) as [resp st] eqn:E.
  destruct r; try congruence; cbn [App.body_of] in *; paths E;
    cbv beta iota in Hf; try discriminate Hf;
    repeat split; discriminate.
Qed.

(** X9.  The statuses each route can answer: the upload route never
    answers 402 or 404, the resume-generation route never 404, the handler
    of the environment keys always 200. *)
Theorem route_statuses W r req c :
  In (status (fst (App.serve W r req (start c)))) (statuses r).
Proof.
  destruct (App.serve W r req (start c)) as [resp st] eqn:E.
  destruct r; cbn [App.body_of] in *; paths E;
    cbn [fst status json json_ok statuses In]; tauto.
Qed.

Lemma credit_spent_without_document_witness :
  let run :=
    App.serve MoreExamples.world_without_openai_key App.cover_letter_route
      (Examples.authorized Examples.cover_letter_body) (start None) in
  status (fst run) = 500%N /\
  count is_insert (trace (snd run)) = 0%nat /\
  count is_completion (trace (snd run)) = 0%nat.
Proof.
  destruct (credit_spent_without_document
              MoreExamples.world_without_openai_key App.cover_letter_route
              (Examples.authorized Examples.cover_letter_body) None
              (lit "cover_letter_generation")
              (consume_credits MoreExamples.world_without_openai_key))
    as (H1 & H2 & H3).
  - vm_compute. right. right. left. reflexivity.
  - reflexivity.
  - reflexivity.
  - split; [exact H1|]. split; [exact H2|]. apply H3. reflexivity.
Defined.

Lemma unauthenticated_calls_nothing_witness :
  let run :=
    App.serve MoreExamples.world_with_stale_token App.resume_upload_route
      (Examples.authorized Examples.text_file) (start (Some 5%Z)) in
  forallb is_get_user (trace (snd run)) = true /\
  credits (snd run) = Some 5%Z /\
  status (fst run) <> 200%N.
Proof.
  apply (unauthenticated_calls_nothing MoreExamples.world_with_stale_token
           App.resume_upload_route
           (Examples.authorized Examples.text_file) (Some 5%Z)).
  - discriminate.
  - reflexivity.
Defined.

Lemma truthy_app_cons a c r : truthy (a ++ c :: r) = true.
Proof. destruct a; reflexivity. Qed.

Lemma truthy_length s : (0 < List.length s)%nat -> truthy s = true.
Proof. destruct s; simpl; [lia|reflexivity]. Qed.

(** X10.  No route inserts a document with an empty text; the text a
    route other than the cover-letter route inserts has no whitespace at
    either end. *)
Theorem inserted_text_not_empty W r req c row :
  In (InsertDocument row) (trace (snd (App.serve W r req (start c)))) ->
  truthy (content_text row) = true /\
  (r <> App.cover_letter_route ->
   starts_with_whitespace (content_text row) = false /\
   ends_with_whitespace (content_text row) = false).
Proof.
  destruct (App.serve W r req (start c)) as [resp st] eqn:E.
  destruct r; cbn [App.body_of] in *; paths E; intros H; in_trace H;
    injection H as <-; cbn [content_text].
  all: first
    [ (* cover letter *)
      split; [|congruence]; unfold CoverLetter.NL;
      cbn [app]; apply truthy_app_cons
    | (* resume generation *)
      match goal with
      | Ht : trim_opt ?content = Some _ |- _ =>
          destruct content; cbn [trim_opt option_map] in Ht;
          [injection Ht as <-|discriminate Ht]
      end;
      split; [assumption | intros _; split; [apply trim_start|apply trim_end]]
    | (* resume tailoring *)
      match goal with
      | Hb : negb (truthy (or_else (trim_opt ?text) [])) = false |- _ =>
          apply negb_false_iff in Hb;
          destruct text as [t|]; cbn [trim_opt option_map or_else] in *;
          [|discriminate Hb];
          destruct (truthy (trim t)) eqn:Ht; [|discriminate Hb]
      end;
      split; [assumption | intros _; split; [apply trim_start|apply trim_end]]
    | (* resume upload *)
      match goal with
      | Hlen : (List.length (ResumeUpload.normalizeText ?x) <? 200)%nat
               = false |- _ =>
          apply Nat.ltb_ge in Hlen;
          split; [apply truthy_length; lia | intros _; split;
                  [apply trim_start|apply trim_end]]
      end ].
Qed.

Lemma inserted_text_not_empty_witness :
  truthy (content_text Examples.text_row) = true /\
  starts_with_whitespace (content_text Examples.text_row) = false /\
  ends_with_whitespace (content_text Examples.text_row) = false.
Proof.
  assert (Hin : In (InsertDocument Examples.text_row)
                  (trace (snd (App.serve Examples.world
                                 App.resume_upload_route
                                 (Examples.authorized Examples.text_file)
                                 (start None))))).
  { vm_compute. right. right. left. reflexivity. }
  destruct (inserted_text_not_empty Examples.world App.resume_upload_route
              (Examples.authorized Examples.text_file) None
              Examples.text_row Hin) as (H1 & H2).
  split; [exact H1|]. apply H2. discriminate.
Defined.

(** *** The balance in the tailoring route *)

(** X11.  The tailoring route never writes a negative balance: what it
    writes is the balance it read, which was positive, minus 1. *)
Theorem tailor_writes_no_negative_balance W req c v :
  In (UpdateCredits v) (trace (snd (TailorResume.POST W req (start c)))) ->
  (0 <= v)%Z /\ exists balance, c = Some balance /\ v = (balance - 1)%Z.
Proof.
  destruct (TailorResume.POST W req (start c)) as [resp st] eqn:E.
  paths E; intros H; in_trace H; injection H as <-;
    match goal with
    | Hb : (?z <=? 0)%Z = false |- _ => apply Z.leb_gt in Hb
    end;
    (split; [lia | eexists; split; reflexivity]).
Qed.

Lemma tailor_writes_no_negative_balance_witness :
  exists balance, Some 1%Z = Some balance /\ 0%Z = (balance - 1)%Z.
Proof.
  refine (proj2 (tailor_writes_no_negative_balance
                   (MoreExamples.world_alone None)
                   (Examples.authorized Examples.tailor_body)
                   (Some 1%Z) 0%Z _)).
  vm_compute. do 5 right. left. reflexivity.
Defined.

(** X12.  When the update of the balance fails, the tailoring route
    answers 200 with the document all the same, writes no row of
    [credit_transactions], and leaves the balance as the other requests
    made it: the tailoring was free. *)
Theorem tailor_failed_update_is_free W req c v :
  In (UpdateCredits v) (trace (snd (TailorResume.POST W req (start c)))) ->
  profiles_update_error W <> None ->
  status (fst (TailorResume.POST W req (start c))) = 200%N /\
  keys (body (fst (TailorResume.POST W req (start c))))
    = ["document"%string] /\
  ~ In InsertCreditTransaction
      (trace (snd (TailorResume.POST W req (start c)))) /\
  credits (snd (TailorResume.POST W req (start c)))
    = option_map (other_requests W) c.
Proof.
  destruct (TailorResume.POST W req (start c)) as [resp st] eqn:E.
  paths E; intros H Hu; in_trace H; try congruence;
    repeat split;
    intros Hin; in_trace Hin.
Qed.

Lemma tailor_failed_update_is_free_witness :
  let run :=
    TailorResume.POST (MoreExamples.world_alone (Some (lit "timeout")))
      (Examples.authorized Examples.tailor_body) (start (Some 3%Z)) in
  status (fst run) = 200%N /\ credits (snd run) = Some 3%Z.
Proof.
  destruct (tailor_failed_update_is_free
              (MoreExamples.world_alone (Some (lit "timeout")))
              (Examples.authorized Examples.tailor_body) (Some 3%Z) 2%Z)
    as (H1 & _ & _ & H4).
  - vm_compute. do 5 right. left. reflexivity.
  - discriminate.
  - split; [exact H1|exact H4].
Defined.

(** X13.  A row of [credit_transactions] is written only after the update
    of the balance has gone through, and then the stored balance is the
    balance read minus 1. *)
Theorem ledger_only_after_update W req c :
  In InsertCreditTransaction
     (trace (snd (TailorResume.POST W req (start c)))) ->
  profiles_update_error W = None /\
  exists balance,
    c = Some balance /\
    In (UpdateCredits (balance - 1))
       (trace (snd (TailorResume.POST W req (start c)))) /\
    credits (snd (TailorResume.POST W req (start c)))
      = Some (balance - 1)%Z.
Proof.
  destruct (TailorResume.POST W req (start c)) as [resp st] eqn:E.
  paths E; intros H; in_trace H.
  split; [reflexivity|]. eexists. split; [reflexivity|].
  split; [|reflexivity]. cbn [snd trace]. do 5 right. left. reflexivity.
Qed.

Lemma ledger_only_after_update_witness :
  credits (snd (TailorResume.POST (MoreExamples.world_alone None)
                  (Examples.authorized Examples.tailor_body)
                  (start (Some 3%Z)))) = Some 2%Z.
Proof.
  destruct (ledger_only_after_update (MoreExamples.world_alone None)
              (Examples.authorized Examples.tailor_body) (Some 3%Z))
    as (_ & balance & Hb & _ & Hc).
  - vm_compute. do 6 right. left. reflexivity.
  - injection Hb as <-. exact Hc.
Defined.

(** X14.  Two tailoring requests one after the other that both succeed,
    with both updates going through, take the balance from [b] to
    [b - 2], and [b] was at least 2 (so the last credit is spent once),
    whatever other requests did to the balance while these two waited for
    the completion API. *)
Theorem tailor_twice W1 req1 W2 req2 c :
  let run1 := TailorResume.POST W1 req1 (start c) in
  let run2 := TailorResume.POST W2 req2 (start (credits (snd run1))) in
  profiles_update_error W1 = None ->
  profiles_update_error W2 = None ->
  status (fst run1) = 200%N ->
  status (fst run2) = 200%N ->
  exists b, c = Some b /\ (2 <= b)%Z /\
            credits (snd run2) = Some (b - 2)%Z.
Proof.
  intros run1 run2 Hu1 Hu2. subst run1 run2.
  destruct (TailorResume.POST W1 req1 (start c)) as [resp1 st1] eqn:E1.
  paths E1; cbn [fst snd status credits json]; intros H1;
    try discriminate H1; try congruence.
  destruct (TailorResume.POST W2 req2 _) as [resp2 st2] eqn:E2.
  paths E2; cbn [fst snd status credits json]; intros H2;
    try discriminate H2; try congruence.
  cbn [option_map] in *.
  repeat match goal with
         | Hb : (_ <=? 0)%Z = false |- _ => apply Z.leb_gt in Hb
         end.
  eexists. split; [reflexivity|]. split; [lia|]. f_equal. lia.
Qed.

Lemma tailor_twice_witness :
  credits
    (snd (TailorResume.POST Examples.world
            (Examples.authorized Examples.tailor_body)
            (start (credits
                      (snd (TailorResume.POST Examples.world
                              (Examples.authorized Examples.tailor_body)
                              (start (Some 3%Z)))))))) = Some 1%Z.
Proof.
  destruct (tailor_twice Examples.world
              (Examples.authorized Examples.tailor_body)
              Examples.world
              (Examples.authorized Examples.tailor_body) (Some 3%Z)
              eq_refl eq_refl eq_refl eq_refl) as (b & Hb & _ & Hc).
  injection Hb as <-. exact Hc.
Defined.

(** *** Helpers of the route files *)

(** X15.  [clamp] answers at most [max] code units, an initial segment of
    the trimmed text, and the trimmed text itself when that fits. *)
Theorem clamp_bound str max :
  (List.length (ResumePrompt.clamp str max) <= max)%nat /\
  (exists rest,
     trim (nullish str []) = ResumePrompt.clamp str max ++ rest) /\
  ((List.length (trim (nullish str [])) <= max)%nat ->
   ResumePrompt.clamp str max = trim (nullish str [])).
Proof.
  unfold ResumePrompt.clamp. cbv zeta.
  set (s := trim (nullish str [])).
  destruct (Nat.ltb_spec max (List.length s)) as [Hlt|Hge].
  - split; [rewrite length_firstn; lia|].
    split; [exists (skipn max s); symmetry; apply firstn_skipn|].
    intros H. lia.
  - split; [lia|]. split; [exists []; symmetry; apply app_nil_r|].
    reflexivity.
Qed.

Lemma match_extension_before_dot a rest :
  UploadTitle.match_extension (a :: rest) = true ->
  ~ In UploadTitle.DOT rest.
Proof.
  cbn [UploadTitle.match_extension]. intros H Hin.
  apply andb_prop in H. destruct H as [_ H].
  rewrite forallb_forall in H. specialize (H _ Hin).
  unfold UploadTitle.is_extension_unit in H.
  rewrite N.eqb_refl, orb_true_r in H. discriminate.
Qed.

(** X16.  The title of an uploaded document is the file name without its
    extension: for a name [base.ext] whose [ext] is not empty and has no
    dot and no slash the title is [base], whatever [base] is; a name
    without a dot is kept whole. *)
Theorem remove_extension_spec base ext :
  (truthy ext = true ->
   forallb UploadTitle.is_extension_unit ext = true ->
   UploadTitle.remove_extension (base ++ UploadTitle.DOT :: ext) = base) /\
  (~ In UploadTitle.DOT base -> UploadTitle.remove_extension base = base).
Proof.
  split.
  - intros Hne Hext. induction base as [|c base IH].
    + cbn [app UploadTitle.remove_extension UploadTitle.match_extension].
      rewrite N.eqb_refl, Hne, Hext. reflexivity.
    + cbn [app UploadTitle.remove_extension].
      destruct (UploadTitle.match_extension
                  (c :: base ++ UploadTitle.DOT :: ext)) eqn:E.
      * apply match_extension_before_dot in E. elim E.
        apply in_or_app. right. now left.
      * rewrite IH. reflexivity.
  - induction base as [|c base IH]; intros Hno; [reflexivity|].
    cbn [UploadTitle.remove_extension UploadTitle.match_extension].
    destruct (N.eqb c UploadTitle.DOT) eqn:E.
    + apply N.eqb_eq in E. subst c. elim Hno. now left.
    + cbn [andb]. rewrite IH; [reflexivity|].
      intros H. apply Hno. now right.
Qed.

Lemma remove_extension_spec_witness :
  UploadTitle.remove_extension
    (lit "jane.doe.resume" ++ UploadTitle.DOT :: lit "pdf")
  = lit "jane.doe.resume".
Proof.
  apply (proj1 (remove_extension_spec (lit "jane.doe.resume") (lit "pdf")));
    reflexivity.
Defined.

Lemma startsWith_app p s : startsWith p (p ++ s) = true.
Proof.
  induction p as [|x p IH]; [reflexivity|].
  cbn [app startsWith]. rewrite N.eqb_refl. exact IH.
Qed.

Lemma includes_here p s : startsWith p s = true -> includes p s = true.
Proof. intros H. destruct s; cbn [includes]; rewrite H; reflexivity. Qed.

Lemma includes_app_r p a s : includes p s = true -> includes p (a ++ s) = true.
Proof.
  intros H. induction a as [|x a IH]; [exact H|].
  cbn [app includes]. rewrite IH. apply orb_true_r.
Qed.

Lemma includes_cons p x s : includes p s = true -> includes p (x :: s) = true.
Proof. intros H. cbn [includes]. rewrite H. apply orb_true_r. Qed.

(** X17.  What a generation route stores is what the completion API
    answered, trimmed: the resume-generation and the tailoring route
    insert exactly that text, the cover-letter route a letter that
    contains it. *)
Theorem stored_text_is_completion W r req c row :
  App.generation_route r = true ->
  In (InsertDocument row) (trace (snd (App.serve W r req (start c)))) ->
  exists text,
    completion_text W r = Some text /\
    match r with
    | App.cover_letter_route =>
        includes (trim text) (content_text row) = true
    | _ => content_text row = trim text
    end.
Proof.
  intros Hr.
  destruct (App.serve W r req (start c)) as [resp st] eqn:E.
  destruct r; try discriminate Hr; cbn [App.body_of] in *; paths E;
    intros H; in_trace H; injection H as <-;
    cbn [content_text completion_text]; use_eqs_goal;
    match goal with
    | |- exists _, ?content = Some _ /\ _ =>
        let tx := fresh "tx" in
        destruct content as [tx|];
        cbn [trim_opt option_map or_else truthy negb] in *;
        try discriminate;
        exists tx; (split; [reflexivity|])
    end;
    try match goal with
        | Ht : Some (trim _) = Some _ |- _ => injection Ht as <-
        end;
    try match goal with
        | Hb : negb (truthy (if truthy ?t then _ else _)) = false |- _ =>
            destruct (truthy t); [|discriminate Hb]
        end;
    first
      [ reflexivity
      | repeat first [ apply includes_here; apply startsWith_app
                     | apply includes_app_r
                     | apply includes_cons ] ].
Qed.

Lemma stored_text_is_completion_witness :
  content_text MoreExamples.tailored_row = trim (lit "SUMMARY: engineer.").
Proof.
  destruct (stored_text_is_completion Examples.world App.tailor_resume_route
              (Examples.authorized Examples.tailor_body) (Some 3%Z)
              MoreExamples.tailored_row eq_refl) as (text & Ht & Hc).
  - vm_compute. do 4 right. left. reflexivity.
  - injection Ht as <-. exact Hc.
Defined.

(** *** The forms and the routes they call *)

(** X18.  What the tailoring form sends passes the tests the tailoring
    route makes on a request before it calls anything: once the module of
    the route has loaded (the key of the completion API is in the
    environment) the handler goes on to ask the identity provider, unless
    building its database client throws; so a 400 for a missing job or a
    short resume text never comes back to the form. *)
Theorem tailor_form_passes_validation jobId resumeText token req W c :
  Forms.tailor jobId resumeText token = Forms.Sent req ->
  (forall t, token = Some t -> Forms.header_safe t = true) ->
  TailorResume.client_built W = true ->
  createClient_throws W = None ->
  exists rest,
    trace (snd (TailorResume.POST W req (start c))) = GetUser :: rest.
Proof.
  unfold Forms.tailor, Forms.with_token. intros Hs _ _ Hc.
  destruct (truthy jobId) eqn:Hj; [|discriminate Hs]. cbn [negb] in Hs.
  destruct (Nat.ltb (List.length (trim resumeText)) 200) eqn:Hl;
    [discriminate Hs|].
  destruct token as [t|]; [|discriminate Hs].
  destruct (truthy t) eqn:Ht; [|discriminate Hs].
  injection Hs as <-.
  destruct (TailorResume.POST W _ (start c)) as [resp st] eqn:E.
  exec E; use_token E.
  change (bearer_token _) with (Some t) in E.
  unfold TailorResume.too_short in E.
  cbn [truthy_opt negb payload TailorResume.jobId TailorResume.resumeText
       nullish orb] in E.
  rewrite Ht, Hj, Hl, Hc in E.
  assert (Hr : truthy resumeText = true).
  { destruct resumeText; [discriminate Hl|reflexivity]. }
  rewrite Hr in E. cbn [negb orb] in E.
  repeat step E; finish E; cbn [snd trace]; eexists; reflexivity.
Qed.

Lemma tailor_form_passes_validation_witness :
  exists req rest,
    Forms.tailor (lit "job-1") (lit Examples.long_text)
      (Some MoreExamples.token) = Forms.Sent req /\
    trace (snd (TailorResume.POST Examples.world req (start (Some 3%Z))))
    = GetUser :: rest.
Proof.
  eexists.
  destruct (tailor_form_passes_validation (lit "job-1")
              (lit Examples.long_text) (Some MoreExamples.token) _
              Examples.world (Some 3%Z) eq_refl) as [rest Hr].
  - intros t [= <-]. reflexivity.
  - reflexivity.
  - reflexivity.
  - exists rest. split; [reflexivity|exact Hr].
Defined.

(** X19.  What the cover-letter form sends is never answered 400 by the
    cover-letter route, and a 401 comes from the identity provider, not
    from a missing header. *)
Theorem cover_letter_form_passes_validation
    jobId fullName address1 cityStateZip phone email token req W c :
  Forms.generate jobId fullName address1 cityStateZip phone email token
  = Forms.Sent req ->
  (forall t, token = Some t -> Forms.header_safe t = true) ->
  status (fst (CoverLetter.POST W req (start c))) <> 400%N /\
  (status (fst (CoverLetter.POST W req (start c))) = 401%N ->
   In GetUser (trace (snd (CoverLetter.POST W req (start c))))).
Proof.
  unfold Forms.generate, Forms.with_token. intros Hs _.
  destruct (truthy jobId) eqn:Hj; [|discriminate Hs]. cbn [negb] in Hs.
  destruct token as [t|]; [|discriminate Hs].
  destruct (truthy t) eqn:Ht; [|discriminate Hs].
  injection Hs as <-.
  destruct (CoverLetter.POST W _ (start c)) as [resp st] eqn:E.
  exec E; use_token E.
  change (bearer_token _) with (Some t) in E.
  cbn [truthy_opt negb payload CoverLetter.jobId nullish] in E.
  rewrite Ht, Hj in E. cbn [negb] in E.
  repeat step E; finish E; cbn [fst snd trace status json json_ok In];
    (split; [discriminate | intros H; first [discriminate H | tauto]]).
Qed.

Lemma cover_letter_form_passes_validation_witness :
  exists req,
    Forms.generate (lit "job-1") [] [] [] [] [] (Some MoreExamples.token)
    = Forms.Sent req /\
    status (fst (CoverLetter.POST Examples.world req (start None))) <> 400%N.
Proof.
  eexists.
  destruct (cover_letter_form_passes_validation (lit "job-1") [] [] [] [] []
              (Some MoreExamples.token) _ Examples.world None eq_refl)
    as [H _].
  - intros t [= <-]. reflexivity.
  - split; [reflexivity|exact H].
Defined.

(** *** The job form *)

Lemma clean_trim x : truthy (trim x) = true -> JobCreator.clean (trim x) = true.
Proof.
  intros H. unfold JobCreator.clean. rewrite H, trim_start, trim_end.
  reflexivity.
Qed.

Lemma clean_optional x : JobCreator.clean_opt (JobCreator.optional x) = true.
Proof.
  unfold JobCreator.optional. destruct (truthy (trim x)) eqn:E;
    [apply clean_trim; exact E|reflexivity].
Qed.

(** X20.  [createJob] gives the [jobs] insert at most one payload, and only
    one that is owned by the user the identity provider returned and whose
    company, role and job description are the fields of the form trimmed
    and not empty; an optional key is either left out or trimmed and not
    empty. *)
Theorem createJob_payload B v p :
  In p (snd (JobCreator.createJob B v)) ->
  snd (JobCreator.createJob B v) = [p] /\
  (exists u, userErr (JobCreator.getUser B) = None /\
             user (JobCreator.getUser B) = Some u /\
             JobCreator.Insert.user_id p = id u) /\
  JobCreator.Insert.company p = trim (JobCreator.company (JobCreator.form v)) /\
  JobCreator.Insert.role p = trim (JobCreator.role (JobCreator.form v)) /\
  JobCreator.Insert.job_description p
  = trim (JobCreator.jobDescription (JobCreator.form v)) /\
  JobCreator.clean (JobCreator.Insert.company p) = true /\
  JobCreator.clean (JobCreator.Insert.role p) = true /\
  JobCreator.clean (JobCreator.Insert.job_description p) = true /\
  JobCreator.clean_opt (JobCreator.Insert.location p) = true /\
  JobCreator.clean_opt (JobCreator.Insert.job_url p) = true /\
  JobCreator.clean_opt (JobCreator.Insert.notes p) = true.
Proof.
  unfold JobCreator.createJob. cbv zeta.
  destruct (truthy (trim (JobCreator.company (JobCreator.form v)))) eqn:Hc;
    cbn [negb]; [|intros []].
  destruct (truthy (trim (JobCreator.role (JobCreator.form v)))) eqn:Hr;
    cbn [negb]; [|intros []].
  destruct (truthy (trim (JobCreator.jobDescription (JobCreator.form v))))
    eqn:Hd; cbn [negb]; [|intros []].
  destruct (userErr (JobCreator.getUser B)) eqn:He; [intros []|].
  destruct (user (JobCreator.getUser B)) as [u|] eqn:Hu; [|intros []].
  assert (Hp : forall q : JobCreator.Insert.Payload, In p [q] -> p = q).
  { intros q [Hq|[]]. congruence. }
  destruct (JobCreator.insertErr B); cbn [snd]; intros H;
    apply Hp in H; subst p; cbn;
    rewrite !clean_trim, !clean_optional by assumption;
    (split; [reflexivity|]); (split; [exists u; auto|]); auto 10.
Qed.

Lemma createJob_payload_witness :
  snd (JobCreator.createJob MoreExamples.job_backend MoreExamples.job_form)
  = [MoreExamples.job_payload] /\
  JobCreator.clean (JobCreator.Insert.company MoreExamples.job_payload) = true.
Proof.
  destruct (createJob_payload MoreExamples.job_backend MoreExamples.job_form
              MoreExamples.job_payload)
    as (H1 & _ & _ & _ & _ & H6 & _).
  - vm_compute. left. reflexivity.
  - split; [exact H1|exact H6].
Defined.

(** *** The list of documents *)

Lemma eqb_eq a b : JS.eqb a b = true <-> a = b.
Proof.
  revert b. induction a as [|x a IH]; intros [|y b]; cbn [JS.eqb];
    try (split; [discriminate|discriminate]); [tauto|].
  rewrite andb_true_iff, N.eqb_eq, IH. split.
  - intros [-> ->]. reflexivity.
  - intros [= -> ->]. auto.
Qed.

Lemma eqb_refl a : JS.eqb a a = true.
Proof. now apply eqb_eq. Qed.

Lemma eqb_neq a b : JS.eqb a b = false <-> a <> b.
Proof.
  destruct (JS.eqb a b) eqn:E.
  - apply eqb_eq in E. split; [discriminate|congruence].
  - split; [|reflexivity]. intros _ H. apply eqb_eq in H. congruence.
Qed.

Section ReplacePair.

(** [replaceAll] of a pattern of two code units [a], [b] by one code unit
    [x]. *)
Variables a b x : N.

Let R := replaceAll [a; b] [x].

Lemma replaceAll_pair_cons c t :
  R (c :: t) =
  if startsWith [a; b] (c :: t)
  then x :: R (tl t)
  else c :: R t.
Proof.
  unfold R, replaceAll. cbn [replaceAll_from].
  destruct (startsWith [a; b] (c :: t)) eqn:E; [|reflexivity].
  destruct t as [|d t]; [cbn in E; rewrite andb_false_r in E; discriminate|].
  reflexivity.
Qed.

Lemma startsWith_pair p q c t :
  startsWith [p; q] (c :: t) = N.eqb p c && head_is (N.eqb q) t.
Proof.
  cbn [startsWith]. destruct t as [|d t]; cbn [startsWith head_is].
  - reflexivity.
  - rewrite andb_true_r. reflexivity.
Qed.

Lemma includes_pair_cons p q c t :
  includes [p; q] (c :: t) =
  (N.eqb p c && head_is (N.eqb q) t) || includes [p; q] t.
Proof. cbn [includes]. rewrite startsWith_pair. reflexivity. Qed.

Lemma replaceAll_pair_head q s :
  x <> q -> head_is (N.eqb q) (R s) = true -> head_is (N.eqb q) s = true.
Proof.
  intros Hx. destruct s as [|c t]; [discriminate|].
  rewrite replaceAll_pair_cons.
  destruct (startsWith [a; b] (c :: t)); [|auto].
  cbn [head_is]. intros H. apply N.eqb_eq in H. congruence.
Qed.

Lemma replaceAll_pair_free_upto n p q s :
  (List.length s <= n)%nat ->
  x <> p -> x <> q ->
  includes [p; q] s = false \/ (p = a /\ q = b) ->
  includes [p; q] (R s) = false.
Proof.
  revert s. induction n as [|n IH]; intros s Hn Hp Hq Hs.
  - destruct s; [reflexivity|simpl in Hn; lia].
  - destruct s as [|c t]; [reflexivity|].
    cbn [List.length] in Hn.
    assert (Ht : includes [p; q] t = false \/ (p = a /\ q = b)).
    { destruct Hs as [Hs|Hs]; [left|now right].
      rewrite includes_pair_cons in Hs. apply orb_false_iff in Hs. tauto. }
    rewrite replaceAll_pair_cons.
    destruct (startsWith [a; b] (c :: t)) eqn:E.
    + rewrite includes_pair_cons.
      assert (Hpx : N.eqb p x = false).
      { apply N.eqb_neq. congruence. }
      rewrite Hpx. cbn [andb orb].
      apply IH; try assumption.
      * destruct t; cbn [tl List.length] in *; lia.
      * destruct Ht as [Ht|Ht]; [left|now right].
        destruct t as [|d t]; [reflexivity|].
        rewrite includes_pair_cons in Ht. apply orb_false_iff in Ht.
        cbn [tl]. tauto.
    + rewrite includes_pair_cons.
      rewrite (IH t) by (assumption || lia). rewrite orb_false_r.
      destruct (N.eqb p c && head_is (N.eqb q) (R t)) eqn:Eh; [|reflexivity].
      apply andb_prop in Eh. destruct Eh as [Hc Hh].
      apply replaceAll_pair_head in Hh; [|assumption].
      assert (Es : startsWith [p; q] (c :: t) = true).
      { rewrite startsWith_pair, Hc, Hh. reflexivity. }
      destruct Hs as [Hs|[-> ->]]; [|congruence].
      rewrite includes_pair_cons, <- startsWith_pair, Es in Hs.
      discriminate.
Qed.

Lemma replaceAll_pair_free p q s :
  x <> p -> x <> q ->
  includes [p; q] s = false \/ (p = a /\ q = b) ->
  includes [p; q] (R s) = false.
Proof. apply (replaceAll_pair_free_upto (List.length s)). lia. Qed.

End ReplacePair.

(** X21.  The text shown for the selected document has no escaped line
    break left in it (no backslash followed by [n], none followed by [r]);
    and a text without a backslash is shown as it is stored. *)
Theorem displayText_unescaped v :
  includes [DocumentsList.BACKSLASH; 110%N] (DocumentsList.displayText v)
  = false /\
  includes [DocumentsList.BACKSLASH; 114%N] (DocumentsList.displayText v)
  = false /\
  (forall d text,
     DocumentsList.selectedDoc v = Some d ->
     DocumentsList.content_text d = Some text ->
     ~ In DocumentsList.BACKSLASH text ->
     DocumentsList.displayText v = text).
Proof.
  unfold DocumentsList.displayText. cbv zeta.
  set (raw := match DocumentsList.selectedDoc v with
              | Some d => _
              | None => _
              end).
  assert (Hlf : forall c, In c [92%N; 110%N; 114%N] -> LF <> c).
  { intros c Hc H. subst c. cbn in Hc. intuition discriminate. }
  split; [|split].
  - apply replaceAll_pair_free; try (apply Hlf; cbn; tauto). left.
    apply replaceAll_pair_free; try (apply Hlf; cbn; tauto). now right.
  - apply replaceAll_pair_free; try (apply Hlf; cbn; tauto). now right.
  - intros d text Hd Ht Hno. subst raw. rewrite Hd, Ht. cbn [nullish].
    rewrite (replaceAll_absent (_ :: _ :: _ :: _) [LF] text Hno)
      by discriminate.
    rewrite (replaceAll_absent [_; 110%N] [LF] text Hno) by discriminate.
    apply (replaceAll_absent [_; 114%N] [LF] text Hno). discriminate.
Qed.

Lemma ltb_trichotomy x y :
  DocumentsList.ltb y x = false -> x <> y -> DocumentsList.ltb x y = true.
Proof.
  revert y. induction x as [|a x IH]; intros [|b y] H Hne;
    cbn [DocumentsList.ltb] in *; try congruence.
  destruct (N.ltb_spec a b) as [Hab|Hab]; [reflexivity|].
  destruct (N.ltb_spec b a) as [Hba|Hba]; [discriminate H|].
  assert (a = b) by lia. subst b.
  rewrite N.eqb_refl in *. cbn [orb andb] in *.
  apply IH; [exact H|congruence].
Qed.

Lemma In_set_add s x y :
  In y (DocumentsList.set_add s x) <-> In y s \/ y = x.
Proof.
  unfold DocumentsList.set_add.
  destruct (existsb (JS.eqb x) s) eqn:E.
  - split; [tauto|]. intros [H| ->]; [exact H|].
    apply existsb_exists in E. destruct E as [z [Hz E]].
    apply eqb_eq in E. congruence.
  - rewrite in_app_iff. cbn [In]. intuition congruence.
Qed.

Lemma NoDup_set_add s x : NoDup s -> NoDup (DocumentsList.set_add s x).
Proof.
  intros Hs. unfold DocumentsList.set_add.
  destruct (existsb (JS.eqb x) s) eqn:E; [exact Hs|].
  assert (Hx : ~ In x s).
  { intros Hin. assert (existsb (JS.eqb x) s = true); [|congruence].
    apply existsb_exists. exists x. split; [exact Hin|apply eqb_refl]. }
  clear E. induction Hs as [|z s Hz Hs IH]; cbn [app].
  - constructor; [intros []|constructor].
  - constructor.
    + rewrite in_app_iff. cbn [In]. intros [H|[H|[]]]; [auto|].
      apply Hx. now left.
    + apply IH. intros H. apply Hx. now right.
Qed.

Lemma fold_set_add xs s :
  NoDup s ->
  NoDup (fold_left DocumentsList.set_add xs s) /\
  forall y, In y (fold_left DocumentsList.set_add xs s) <-> In y s \/ In y xs.
Proof.
  revert s. induction xs as [|x xs IH]; intros s Hs; cbn [fold_left].
  - split; [exact Hs|]. intros y. cbn [In]. tauto.
  - destruct (IH _ (NoDup_set_add s x Hs)) as [H1 H2].
    split; [exact H1|]. intros y. rewrite H2, In_set_add. cbn [In].
    intuition congruence.
Qed.

Lemma In_insert x l y :
  In y (DocumentsList.insert x l) <-> y = x \/ In y l.
Proof.
  induction l as [|z l IH]; cbn [DocumentsList.insert In].
  - intuition congruence.
  - destruct (DocumentsList.ltb z x); cbn [In]; rewrite ?IH;
      intuition congruence.
Qed.

Lemma NoDup_insert x l :
  NoDup l -> ~ In x l -> NoDup (DocumentsList.insert x l).
Proof.
  induction 1 as [|z l Hz Hl IH]; intros Hx; cbn [DocumentsList.insert].
  - constructor; [intros []|constructor].
  - destruct (DocumentsList.ltb z x).
    + constructor.
      * rewrite In_insert. intros [-> |H]; [|auto]. apply Hx. now left.
      * apply IH. intros H. apply Hx. now right.
    + constructor; [exact Hx|]. constructor; assumption.
Qed.

Lemma Sorted_insert x l :
  Sorted.Sorted DocumentsList.ascending l -> ~ In x l ->
  Sorted.Sorted DocumentsList.ascending (DocumentsList.insert x l).
Proof.
  induction 1 as [|z l Hl IH Hz]; intros Hx; cbn [DocumentsList.insert].
  - constructor; constructor.
  - destruct (DocumentsList.ltb z x) eqn:E.
    + constructor.
      * apply IH. intros H. apply Hx. now right.
      * destruct l as [|w l]; cbn [DocumentsList.insert].
        -- constructor. exact E.
        -- destruct (DocumentsList.ltb w x); constructor; [|exact E].
           inversion Hz. assumption.
    + constructor.
      * constructor; assumption.
      * constructor. apply ltb_trichotomy; [exact E|].
        intros ->. apply Hx. now left.
Qed.

Lemma sort_spec l :
  NoDup l ->
  Sorted.Sorted DocumentsList.ascending (DocumentsList.sort l) /\
  NoDup (DocumentsList.sort l) /\
  forall y, In y (DocumentsList.sort l) <-> In y l.
Proof.
  induction 1 as [|x l Hx Hl IH]; cbn [DocumentsList.sort fold_right].
  - split; [constructor|]. split; [constructor|]. tauto.
  - destruct IH as (H1 & H2 & H3). fold (DocumentsList.sort l).
    assert (Hx' : ~ In x (DocumentsList.sort l)) by now rewrite H3.
    split; [apply Sorted_insert; assumption|].
    split; [apply NoDup_insert; assumption|].
    intros y. rewrite In_insert, H3. cbn [In]. intuition congruence.
Qed.

Lemma availableTypes_types v d :
  In d (DocumentsList.docs v) ->
  In (DocumentsList.type_or_other d) (tl (DocumentsList.availableTypes v)).
Proof.
  intros Hd. unfold DocumentsList.availableTypes. cbn [tl].
  destruct (fold_set_add
              (List.map DocumentsList.type_or_other (DocumentsList.docs v))
              [] (NoDup_nil _)) as [Hn Hin].
  destruct (sort_spec _ Hn) as (_ & _ & H3).
  apply H3, Hin. right. apply in_map_iff. exists d. auto.
Qed.

(** X22.  The menu of document types is ["all"] followed by the types of
    the documents (a missing type counts as ["other"]), each once, in
    strictly ascending order of code units. *)
Theorem availableTypes_sorted v :
  exists types,
    DocumentsList.availableTypes v = lit "all" :: types /\
    Sorted.Sorted DocumentsList.ascending types /\
    NoDup types /\
    forall t, In t types <->
              exists d, In d (DocumentsList.docs v) /\
                        DocumentsList.type_or_other d = t.
Proof.
  unfold DocumentsList.availableTypes. eexists. split; [reflexivity|].
  destruct (fold_set_add
              (List.map DocumentsList.type_or_other (DocumentsList.docs v))
              [] (NoDup_nil _)) as [Hn Hin].
  destruct (sort_spec _ Hn) as (H1 & H2 & H3).
  split; [exact H1|]. split; [exact H2|].
  intros t. rewrite H3, Hin, in_map_iff. cbn [In]. split.
  - intros [[]|[d [Hd Hi]]]. exists d. auto.
  - intros [d [Hi Hd]]. right. exists d. auto.
Qed.

(** X23.  The menu covers the documents: each document is listed under
    the entry of the menu that is its type (["other"] when it has none),
    the entry ["all"] lists every document, and an entry lists nothing but
    documents of that type. *)
Theorem filter_menu_complete v :
  (forall d, In d (DocumentsList.docs v) ->
     In (DocumentsList.type_or_other d) (DocumentsList.availableTypes v) /\
     In d (DocumentsList.filtered
             {| DocumentsList.docs := DocumentsList.docs v;
                DocumentsList.filterType := DocumentsList.type_or_other d;
                DocumentsList.selectedId := DocumentsList.selectedId v |})) /\
  (DocumentsList.filterType v = lit "all" ->
   DocumentsList.filtered v = DocumentsList.docs v) /\
  (forall d, In d (DocumentsList.filtered v) ->
     In d (DocumentsList.docs v) /\
     (DocumentsList.filterType v = lit "all" \/
      DocumentsList.type_or_other d = DocumentsList.filterType v)).
Proof.
  split; [|split].
  - intros d Hd. split.
    + change (DocumentsList.availableTypes v)
        with (lit "all" :: tl (DocumentsList.availableTypes v)).
      right. apply availableTypes_types. exact Hd.
    + unfold DocumentsList.filtered.
      cbn [DocumentsList.filterType DocumentsList.docs].
      destruct (JS.eqb (DocumentsList.type_or_other d) (lit "all"));
        [exact Hd|].
      apply filter_In. split; [exact Hd|apply eqb_refl].
  - intros H. unfold DocumentsList.filtered. rewrite H, eqb_refl.
    reflexivity.
  - intros d. unfold DocumentsList.filtered.
    destruct (JS.eqb (DocumentsList.filterType v) (lit "all")) eqn:E.
    + apply eqb_eq in E. auto.
    + rewrite filter_In. intros [H1 H2]. apply eqb_eq in H2. auto.
Qed.

Lemma find_filter {A} (p q : A -> bool) l :
  (forall x, p x = true -> q x = true) ->
  find p (filter q l) = find p l.
Proof.
  intros H. induction l as [|x l IH]; [reflexivity|].
  cbn [filter find]. destruct (q x) eqn:Eq.
  - cbn [find]. destruct (p x); [reflexivity|exact IH].
  - destruct (p x) eqn:Ep; [|exact IH].
    apply H in Ep. congruence.
Qed.

(** X24.  Deleting a document (confirmed, and the database agreeing)
    takes out of the list the documents with that id and no other, keeps
    the order of the rest, deselects the document when it was the selected
    one and leaves the selected document as it was otherwise; a refused or
    failed deletion changes nothing. *)
Theorem deleteDoc_spec confirmed deleteErr doc_id v :
  let v' := DocumentsList.deleteDoc confirmed deleteErr doc_id v in
  (confirmed = true -> deleteErr = None ->
   DocumentsList.docs v'
   = filter (fun d => negb (JS.eqb (DocumentsList.id d) doc_id))
       (DocumentsList.docs v) /\
   (forall d, In d (DocumentsList.docs v') <->
              In d (DocumentsList.docs v) /\ DocumentsList.id d <> doc_id) /\
   DocumentsList.selectedDoc v'
   = if match DocumentsList.selectedId v with
        | Some sid => JS.eqb sid doc_id
        | None => false
        end
     then None else DocumentsList.selectedDoc v) /\
  (confirmed = false \/ deleteErr <> None -> v' = v).
Proof.
  intros v'. subst v'. unfold DocumentsList.deleteDoc. split.
  - intros -> ->. cbn [negb DocumentsList.docs]. split; [reflexivity|]. split.
    + intros d. rewrite filter_In, negb_true_iff, eqb_neq. tauto.
    + unfold DocumentsList.selectedDoc.
      cbn [DocumentsList.selectedId DocumentsList.docs].
      destruct (DocumentsList.selectedId v) as [sid|]; [|reflexivity].
      destruct (JS.eqb sid doc_id) eqn:E; [reflexivity|].
      apply find_filter. intros d Hd. apply eqb_eq in Hd.
      apply negb_true_iff. rewrite Hd. exact E.
  - intros [-> |H]; [reflexivity|].
    destruct confirmed; [|reflexivity]. cbn [negb].
    destruct deleteErr; [reflexivity|congruence].
Qed.
